(** * smalltree: the session engine of the read-aloud tree game

    A shallow embedding of the engine found in the [App] component
    (game loop [tick], the action handlers and the derived values) and of
    the constants it imports.  Every JavaScript [number] of the source is
    an IEEE-754 binary64 value; it is modelled with the Standard Library's
    executable specification of binary floating point ([SpecFloat]) at
    precision 53 and maximal exponent 1024, so that the arithmetic of the
    model is the arithmetic the program performs.  The timestamps of
    [Date.now] are whole milliseconds and are kept as integers.  The
    sensor is outside the engine: the sample it returns on a tick and its
    answer to a capture request are inputs of the model. *)

From Stdlib Require Import ZArith Bool List Lia String.
From Stdlib Require Import Floats.SpecFloat.
Import ListNotations.

Local Open Scope Z_scope.

(** ** JavaScript numbers *)

Module Num.

Definition prec : Z := 53.
Definition emax : Z := 1024.

Definition number := spec_float.

Definition add : number -> number -> number := SFadd prec emax.
Definition sub : number -> number -> number := SFsub prec emax.
Definition mul : number -> number -> number := SFmul prec emax.
Definition div : number -> number -> number := SFdiv prec emax.

(** [a > b], [a >= b], [a < b], [a <= b] and [a === b] of the source;
    all are false as soon as one operand is NaN. *)
Definition gtb (a b : number) : bool := SFltb b a.
Definition geb (a b : number) : bool := SFleb b a.
Definition ltb (a b : number) : bool := SFltb a b.
Definition leb (a b : number) : bool := SFleb a b.
Definition eqb (a b : number) : bool := SFeqb a b.

(** An integer literal of the source. *)
Definition of_Z (z : Z) : number := binary_normalize prec emax z 0 false.

Definition is_neg_zero (a : number) : bool :=
  match a with S754_zero true => true | _ => false end.

(** [Math.min]: NaN if an operand is NaN, and -0 is below +0. *)
Definition min (a b : number) : number :=
  match SFcompare a b with
  | None => S754_nan
  | Some Lt => a
  | Some Gt => b
  | Some Eq => if is_neg_zero a then a else b
  end.

(** [Math.max]: NaN if an operand is NaN, and +0 is above -0. *)
Definition max (a b : number) : number :=
  match SFcompare a b with
  | None => S754_nan
  | Some Lt => b
  | Some Gt => a
  | Some Eq => if is_neg_zero a then b else a
  end.

(** [Math.floor]: the largest integral value not above the argument.
    A finite value [m * 2^e] with [e < 0] has integer part
    [floor (m / 2^(-e))], which has at most as many digits as [m]. *)
Definition floor (a : number) : number :=
  match a with
  | S754_finite s m e =>
      if 0 <=? e then a
      else binary_normalize prec emax
             (Z.shiftr (cond_Zopp s (Zpos m)) (- e)) 0 s
  | _ => a
  end.

(** The remainder operator [%]: the exact value of
    [a - trunc (a / b) * b], with the sign of the dividend. *)
Definition rem (a b : number) : number :=
  match a, b with
  | S754_nan, _ | _, S754_nan => S754_nan
  | S754_infinity _, _ => S754_nan
  | _, S754_zero _ => S754_nan
  | S754_zero _, _ => a
  | S754_finite _ _ _, S754_infinity _ => a
  | S754_finite sa ma ea, S754_finite _ mb eb =>
      let ez := Z.min ea eb in
      let xa := Zpos (fst (shl_align ma ea ez)) in
      let xb := Zpos (fst (shl_align mb eb ez)) in
      binary_normalize prec emax (cond_Zopp sa (Z.rem xa xb)) ez sa
  end.

Definition zero : number := S754_zero false.

Definition is_nan (a : number) : bool :=
  match a with S754_nan => true | _ => false end.

End Num.

Definition number : Type := Num.number.

(** ** Data model ([types.ts]) *)

Inductive AppState : Type :=
| IDLE
| CALIBRATING
| READING
| PAUSED
| COMPLETED.

Definition AppState_eqb (a b : AppState) : bool :=
  match a, b with
  | IDLE, IDLE | CALIBRATING, CALIBRATING | READING, READING
  | PAUSED, PAUSED | COMPLETED, COMPLETED => true
  | _, _ => false
  end.

Record SessionStats : Type := mkStats {
  duration : number;        (* total seconds active *)
  validDuration : number;   (* seconds in target zone *)
  tooLoudDuration : number; (* seconds screaming *)
  treesPlanted : number     (* number of fully grown trees *)
}.

(** ** Constants ([constants.ts]) *)

Definition EMA_ALPHA : number := Num.div (Num.of_Z 2) (Num.of_Z 10).
Definition MIN_DECIBELS : number := Num.of_Z (-100).
Definition CALIBRATION_DURATION_MS : Z := 3000.
Definition DEFAULT_NOISE_FLOOR_DB : number := Num.of_Z (-60).
Definition TARGET_DB_OFFSET : number := Num.of_Z 10.
Definition SCREAM_THRESHOLD_DB : number := Num.of_Z (-15).
Definition MAX_TREE_HEIGHT : number := Num.of_Z 100.
Definition POINTS_PER_SECOND : number := Num.of_Z 10.
Definition UPDATE_INTERVAL_MS : number := Num.of_Z 100.

(** ** The microphone service ([audioService.ts])

    Only what the engine observes is kept: whether an audio context is
    held, and how many capture requests ([getUserMedia]) were issued. *)

Record AudioService : Type := mkAudio {
  audioContext : bool;
  captureRequests : nat
}.

(** [audioService.start()]: returns at once when a context is held;
    otherwise asks for the microphone, and throws when it is refused or
    unsupported ([granted = false]), holding no context. *)
Definition audio_start (granted : bool) (a : AudioService)
  : AudioService * bool :=
  if audioContext a then (a, true)
  else if granted
       then (mkAudio true (S (captureRequests a)), true)
       else (mkAudio false (S (captureRequests a)), false).

(** [audioService.stop()]. *)
Definition audio_stop (a : AudioService) : AudioService :=
  mkAudio false (captureRequests a).

(** ** The component state of [App] *)

Record App : Type := mkApp {
  appState : AppState;
  currentDb : number;
  noiseFloor : number;
  stats : SessionStats;
  permissionError : option string;
  calibrationStartTimeRef : Z;
  audio : AudioService
}.

Definition zeroStats : SessionStats :=
  mkStats Num.zero Num.zero Num.zero Num.zero.

Definition initialApp : App :=
  mkApp IDLE (Num.of_Z (-100)) DEFAULT_NOISE_FLOOR_DB zeroStats None 0
        (mkAudio false 0).

Definition setAppState (a : AppState) (s : App) : App :=
  mkApp a (currentDb s) (noiseFloor s) (stats s) (permissionError s)
        (calibrationStartTimeRef s) (audio s).

Definition setCurrentDb (f : number -> number) (s : App) : App :=
  mkApp (appState s) (f (currentDb s)) (noiseFloor s) (stats s)
        (permissionError s) (calibrationStartTimeRef s) (audio s).

Definition setNoiseFloor (n : number) (s : App) : App :=
  mkApp (appState s) (currentDb s) n (stats s) (permissionError s)
        (calibrationStartTimeRef s) (audio s).

Definition setStats (f : SessionStats -> SessionStats) (s : App) : App :=
  mkApp (appState s) (currentDb s) (noiseFloor s) (f (stats s))
        (permissionError s) (calibrationStartTimeRef s) (audio s).

Definition setPermissionError (e : option string) (s : App) : App :=
  mkApp (appState s) (currentDb s) (noiseFloor s) (stats s) e
        (calibrationStartTimeRef s) (audio s).

Definition setCalibrationStart (t : Z) (s : App) : App :=
  mkApp (appState s) (currentDb s) (noiseFloor s) (stats s)
        (permissionError s) t (audio s).

Definition setAudio (a : AudioService) (s : App) : App :=
  mkApp (appState s) (currentDb s) (noiseFloor s) (stats s)
        (permissionError s) (calibrationStartTimeRef s) a.

(** ** Computed values *)

Definition targetDb (s : App) : number :=
  Num.add (noiseFloor s) TARGET_DB_OFFSET.

Definition TREE_CYCLE_SECONDS : number :=
  Num.div MAX_TREE_HEIGHT POINTS_PER_SECOND.

Definition currentTreeProgressSeconds (st : SessionStats) : number :=
  Num.rem (validDuration st) TREE_CYCLE_SECONDS.

Definition growthPercentage (st : SessionStats) : number :=
  Num.min (Num.of_Z 100)
    (Num.mul (Num.div (currentTreeProgressSeconds st) TREE_CYCLE_SECONDS)
             (Num.of_Z 100)).

Inductive VolumeStatus : Type :=
| calibrating
| idle
| loud
| good
| quiet.

Definition getVolumeStatus (s : App) (db : number) : VolumeStatus :=
  if AppState_eqb (appState s) CALIBRATING then calibrating
  else if negb (AppState_eqb (appState s) READING) then idle
  else if Num.gtb db SCREAM_THRESHOLD_DB then loud
  else if Num.geb db (targetDb s) then good
  else quiet.

(** ** The game loop *)

Definition timeDelta : number :=
  Num.div UPDATE_INTERVAL_MS (Num.of_Z 1000).

(** The three state updaters handed to [setStats] by [tick]. *)
Definition tooLoudUpdate (s : SessionStats) : SessionStats :=
  mkStats (Num.add (duration s) timeDelta)
          (validDuration s)
          (Num.add (tooLoudDuration s) timeDelta)
          (treesPlanted s).

Definition goodUpdate (s : SessionStats) : SessionStats :=
  let newValidDuration := Num.add (validDuration s) timeDelta in
  let newTreesPlanted :=
    Num.floor (Num.div newValidDuration TREE_CYCLE_SECONDS) in
  mkStats (Num.add (duration s) timeDelta)
          newValidDuration
          (tooLoudDuration s)
          newTreesPlanted.

Definition tooQuietUpdate (s : SessionStats) : SessionStats :=
  mkStats (Num.add (duration s) timeDelta)
          (validDuration s)
          (tooLoudDuration s)
          (treesPlanted s).

(** The smoothing updater handed to [setCurrentDb], for a factor [alpha]. *)
Definition smooth (alpha : number) (db prev : number) : number :=
  Num.add (Num.mul prev (Num.sub (Num.of_Z 1) alpha)) (Num.mul db alpha).

(** [tick], for the sample [db] read from the sensor at time [now]
    (milliseconds).  The smoothing factor is a parameter so that runs
    with different factors can be compared; the program uses
    [EMA_ALPHA]. *)
Definition tick_with (alpha : number) (db : number) (now : Z) (s : App) : App :=
  let s1 := setCurrentDb (smooth alpha db) s in
  match appState s with
  | CALIBRATING =>
      let elapsed := now - calibrationStartTimeRef s in
      if CALIBRATION_DURATION_MS <? elapsed then
        let detectedFloor :=
          Num.max (Num.of_Z (-80)) (Num.min (Num.of_Z (-30)) db) in
        setAppState IDLE (setNoiseFloor detectedFloor s1)
      else s1
  | READING =>
      if Num.gtb db SCREAM_THRESHOLD_DB then setStats tooLoudUpdate s1
      else if Num.geb db (targetDb s) then setStats goodUpdate s1
      else setStats tooQuietUpdate s1
  | _ => s1
  end.

Definition tick : number -> Z -> App -> App := tick_with EMA_ALPHA.

(** The effect that arms the interval: the loop runs in these states
    only. *)
Definition timerArmed (s : App) : bool :=
  match appState s with
  | CALIBRATING | READING => true
  | _ => false
  end.

(** ** Actions *)

Definition calibrationErrorMessage : string :=
  "请允许麦克风权限以使用此应用。".
Definition readingErrorMessage : string := "需要麦克风权限。".

Definition handleStartCalibration (granted : bool) (now : Z) (s : App) : App :=
  let s1 := setPermissionError None s in
  let '(a, ok) := audio_start granted (audio s1) in
  let s2 := setAudio a s1 in
  if ok then setAppState CALIBRATING (setCalibrationStart now s2)
  else setPermissionError (Some calibrationErrorMessage) s2.

Definition handleStartReading (granted : bool) (s : App) : App :=
  let s1 := setPermissionError None s in
  let '(a, ok) :=
    if negb (audioContext (audio s1)) then audio_start granted (audio s1)
    else (audio s1, true) in
  let s2 := setAudio a s1 in
  if ok then setAppState READING s2
  else setPermissionError (Some readingErrorMessage) s2.

Definition handleStop (s : App) : App :=
  setAudio (audio_stop (audio s)) (setAppState COMPLETED s).

Definition handleReset (s : App) : App :=
  setAppState IDLE
    (setStats (fun _ => mkStats Num.zero Num.zero Num.zero Num.zero)
       (setAudio (audio_stop (audio s)) s)).

Definition handleContinue (s : App) : App :=
  setStats (fun _ => mkStats Num.zero Num.zero Num.zero Num.zero)
    (setAppState IDLE s).

(** ** Runs: what can happen to the component *)

Inductive Event : Type :=
| Tick (db : number) (now : Z)
| StartCalibration (granted : bool) (now : Z)
| StartReading (granted : bool)
| Stop
| Reset
| Continue.

Definition step_with (alpha : number) (e : Event) (s : App) : App :=
  match e with
  | Tick db now => if timerArmed s then tick_with alpha db now s else s
  | StartCalibration granted now => handleStartCalibration granted now s
  | StartReading granted => handleStartReading granted s
  | Stop => handleStop s
  | Reset => handleReset s
  | Continue => handleContinue s
  end.

Definition step : Event -> App -> App := step_with EMA_ALPHA.

Definition run_with (alpha : number) (es : list Event) (s : App) : App :=
  fold_left (fun acc e => step_with alpha e acc) es s.

Definition run : list Event -> App -> App := run_with EMA_ALPHA.

(** ** The classifier and the accumulator, as the specification words them

    The source inlines both in [tick]; these are the two functions of the
    specification, compared with the source below. *)

Inductive Verdict : Type :=
| TooQuiet
| Good
| TooLoud.

Definition classify (currentDb noiseFloorDb targetOffsetDb screamThresholdDb : number)
  : Verdict :=
  if Num.gtb currentDb screamThresholdDb then TooLoud
  else if Num.geb currentDb (Num.add noiseFloorDb targetOffsetDb) then Good
  else TooQuiet.

Definition accumulate (delta treeCycleSeconds : number) (v : Verdict)
  (s : SessionStats) : SessionStats :=
  match v with
  | TooLoud =>
      mkStats (Num.add (duration s) delta) (validDuration s)
              (Num.add (tooLoudDuration s) delta) (treesPlanted s)
  | Good =>
      mkStats (Num.add (duration s) delta)
              (Num.add (validDuration s) delta)
              (tooLoudDuration s)
              (Num.floor (Num.div (Num.add (validDuration s) delta)
                                  treeCycleSeconds))
  | TooQuiet =>
      mkStats (Num.add (duration s) delta) (validDuration s)
              (tooLoudDuration s) (treesPlanted s)
  end.

(** The verdict of a sample in state [s]. *)
Definition verdictOf (s : App) (db : number) : Verdict :=
  classify db (noiseFloor s) TARGET_DB_OFFSET SCREAM_THRESHOLD_DB.

(** The three regions of the decibel line. *)
Definition inTooLoud (db scream : number) : bool := Num.gtb db scream.
Definition inGood (db target scream : number) : bool :=
  Num.geb db target && Num.leb db scream.
Definition inTooQuiet (db target scream : number) : bool :=
  Num.ltb db target && Num.leb db scream.

Definition statusOfVerdict (v : Verdict) : VolumeStatus :=
  match v with
  | TooLoud => loud
  | Good => good
  | TooQuiet => quiet
  end.

(** The state the session is in once reading has begun after [k] ticks
    worth of events: a reading session fed the samples [dbs], one per
    tick, the [i]-th tick firing at time [t0 + i * 100]. *)
Fixpoint readingTicks (dbs : list number) (now : Z) (s : App) : App :=
  match dbs with
  | [] => s
  | db :: rest => readingTicks rest (now + 100) (tick db now s)
  end.

(** ** Clamping, as the specification words it *)

Definition clamp (lo hi x : number) : number :=
  if Num.ltb x lo then lo else if Num.gtb x hi then hi else x.

(** A calibration run started at [t0] and fed the constant sample [c] on
    each of [n] ticks, one every 100 ms. *)
Definition calibrationStream (c : number) (t0 : Z) (n : nat) : list Event :=
  StartCalibration true t0
  :: map (fun i => Tick c (t0 + 100 * Z.of_nat i)) (seq 1 n).

(** ** What scoring can observe: everything but the smoothed level *)

Definition scoringView (s : App)
  : AppState * number * SessionStats * option string * Z * AudioService :=
  (appState s, noiseFloor s, stats s, permissionError s,
   calibrationStartTimeRef s, audio s).

Definition isStartCalibration (e : Event) : bool :=
  match e with
  | StartCalibration _ _ => true
  | _ => false
  end.

(** ** Accumulated time

    The value a counter holds after [k] additions of the time delta,
    starting from zero. *)

Definition acc (k : nat) : number :=
  Nat.iter k (fun x => Num.add x timeDelta) Num.zero.

(** The values a counter goes through: zero, or a positive normal
    binary64 value with exponent between -56 and -2 (between 2^-4 and
    2^51). *)
Definition accumulated (x : number) : Prop :=
  x = S754_zero false
  \/ exists m e, x = S754_finite false m e
                 /\ Zpos (digits2_pos m) = 53 /\ -56 <= e <= -2.

Definition Verdict_eqb (a b : Verdict) : bool :=
  match a, b with
  | TooQuiet, TooQuiet | Good, Good | TooLoud, TooLoud => true
  | _, _ => false
  end.

(** How many of the samples [dbs] get the verdict [v] at noise floor
    [nf]. *)
Definition countVerdict (v : Verdict) (nf : number) (dbs : list number) : nat :=
  List.length
    (filter
       (fun db =>
          Verdict_eqb (classify db nf TARGET_DB_OFFSET SCREAM_THRESHOLD_DB) v)
       dbs).

(** The too-quiet time, which is not stored: the duration less the valid
    and the too-loud durations. *)
Definition tooQuietSeconds (st : SessionStats) : number :=
  Num.sub (Num.sub (duration st) (validDuration st)) (tooLoudDuration st).

(** The statistics after the samples [dbs], one per Reading tick, at noise
    floor [nf]. *)
Definition accumulateAll (nf : number) (dbs : list number) (st : SessionStats)
  : SessionStats :=
  fold_left
    (fun acc db =>
       accumulate timeDelta TREE_CYCLE_SECONDS
         (classify db nf TARGET_DB_OFFSET SCREAM_THRESHOLD_DB) acc)
    dbs st.

(** The invariant of the statistics: each counter is the accumulation of
    the time delta over a number of ticks, the ticks counted as valid and
    as too loud are among the ticks counted in the duration, and the tree
    count is recomputed from the valid duration. *)
Definition statsInvariant (st : SessionStats) : Prop :=
  exists n g l : nat,
    (g + l <= n)%nat
    /\ duration st = acc n
    /\ validDuration st = acc g
    /\ tooLoudDuration st = acc l
    /\ treesPlanted st
       = Num.floor (Num.div (validDuration st) TREE_CYCLE_SECONDS).

(** Three samples for the default noise floor: one in each region. *)
Definition goodSample : number := Num.of_Z (-40).
Definition loudSample : number := Num.of_Z (-10).
Definition quietSample : number := Num.of_Z (-70).

(** ** The controls of the page

    Which action the rendered page offers in a state: the calibration
    button is drawn in Idle only; the round button is the stop button
    while Reading and otherwise the start button, disabled in Calibrating
    and in Completed; the reset button is drawn in Paused and Reading;
    the button of the summary, which continues, in Completed; the
    interval fires while it is armed.  Each action is taken to finish
    before the next event. *)

Definition available (e : Event) (s : App) : bool :=
  match e with
  | Tick _ _ => timerArmed s
  | StartCalibration _ _ => AppState_eqb (appState s) IDLE
  | StartReading _ =>
      negb (AppState_eqb (appState s) READING)
      && negb (AppState_eqb (appState s) CALIBRATING
               || AppState_eqb (appState s) COMPLETED)
  | Stop => AppState_eqb (appState s) READING
  | Reset =>
      AppState_eqb (appState s) PAUSED || AppState_eqb (appState s) READING
  | Continue => AppState_eqb (appState s) COMPLETED
  end.

(** An event on the page: it acts when the page offers it. *)
Definition pageStep (e : Event) (s : App) : App :=
  if available e s then step e s else s.

Definition pageRun (es : list Event) (s : App) : App :=
  fold_left (fun acc e => pageStep e acc) es s.



Definition isNumericTick (e : Event) : bool :=
  match e with
  | Tick db _ => negb (Num.is_nan db)
  | _ => true
  end.

(** ** More of [Math] *)

(** [Math.ceil]: the smallest integral value not below the argument. *)
Definition Math_ceil (a : number) : number := SFopp (Num.floor (SFopp a)).

(** [Math.round]: the integral value nearest to the argument, the upper
    one at a tie; zero results keep the sign of the argument. *)
Definition Math_round (a : number) : number :=
  match a with
  | S754_finite s m e =>
      if 0 <=? e then a
      else binary_normalize Num.prec Num.emax
             (Z.shiftr (2 * cond_Zopp s (Zpos m) + 2 ^ (- e)) (- e + 1)) 0 s
  | _ => a
  end.

Definition is_finite (a : number) : bool :=
  match a with
  | S754_finite _ _ _ => true
  | _ => false
  end.

(** ** Derived values of the dashboard *)

Definition focusPercent (st : SessionStats) : number :=
  if Num.gtb (duration st) Num.zero
  then Math_round (Num.mul (Num.div (validDuration st) (duration st))
                      (Num.of_Z 100))
  else Num.zero.

(** ** The volume meter ([VolumeMeter]) *)

Definition minRange : number := Num.of_Z (-70).
Definition maxRange : number := Num.of_Z (-10).

Definition normalize (db : number) : number :=
  Num.min (Num.of_Z 100)
    (Num.max Num.zero
       (Num.mul (Num.div (Num.sub db minRange) (Num.sub maxRange minRange))
                (Num.of_Z 100))).

(** Values that are zero or below, and zero or above. *)
Definition nonPositive (x : number) : Prop :=
  (exists s, x = S754_zero s)
  \/ (exists m e, x = S754_finite true m e)
  \/ x = S754_infinity true.

Definition nonNegative (x : number) : Prop :=
  x = S754_zero false
  \/ (exists m e, x = S754_finite false m e)
  \/ x = S754_infinity false.

(** ** The growth sounds of the tree ([Tree]) *)







(** ** The microphone service in full ([AudioService])

    The five fields of the class, each held or null, and the count of
    capture requests.  A start meets one of three answers: the
    microphone is granted; the request is refused; or the stream is
    granted and no audio context can be built. *)

Record ServiceState : Type := mkService {
  sv_audioContext : bool;
  sv_analyser : bool;
  sv_microphone : bool;
  sv_dataArray : bool;
  sv_stream : bool;
  sv_requests : nat
}.

Inductive Capture : Type :=
| Granted
| Denied
| Unsupported.

Definition freshService : ServiceState :=
  mkService false false false false false 0.

(** [start()]: the new state, and whether it returned rather than threw. *)
Definition service_start (c : Capture) (a : ServiceState)
  : ServiceState * bool :=
  if sv_audioContext a then (a, true)
  else
    match c with
    | Granted => (mkService true true true true true (S (sv_requests a)), true)
    | Denied =>
        (mkService false (sv_analyser a) (sv_microphone a) (sv_dataArray a)
                   (sv_stream a) (S (sv_requests a)), false)
    | Unsupported =>
        (mkService false (sv_analyser a) (sv_microphone a) (sv_dataArray a)
                   true (S (sv_requests a)), false)
    end.

(** [stop()]. *)
Definition service_stop (a : ServiceState) : ServiceState :=
  mkService false false false (sv_dataArray a) false (sv_requests a).

Inductive ServiceCall : Type :=
| CallStart (c : Capture)
| CallStop.

Definition service_call (k : ServiceCall) (a : ServiceState) : ServiceState :=
  match k with
  | CallStart c => fst (service_start c a)
  | CallStop => service_stop a
  end.


(** What the engine sees of the service. *)
Definition engineView (a : ServiceState) : AudioService :=
  mkAudio (sv_audioContext a) (sv_requests a).

Definition isGranted (c : Capture) : bool :=
  match c with
  | Granted => true
  | _ => false
  end.


(** [getMetrics()], for the time-domain samples the analyser writes into
    the buffer.  [Math.log10] is not modelled: it is a parameter. *)
Definition sumSquares (samples : list number) : number :=
  fold_left (fun acc x => Num.add acc (Num.mul x x)) samples Num.zero.

Definition getMetrics (log10 : number -> number) (a : ServiceState)
  (samples : list number) : number * number :=
  if negb (sv_analyser a) || negb (sv_dataArray a)
  then (Num.zero, MIN_DECIBELS)
  else
    let rms :=
      SFsqrt Num.prec Num.emax
        (Num.div (sumSquares samples)
                 (Num.of_Z (Z.of_nat (List.length samples)))) in
    let db :=
      if Num.gtb rms Num.zero then Num.mul (Num.of_Z 20) (log10 rms)
      else MIN_DECIBELS in
    (rms, Num.max MIN_DECIBELS (Num.min db Num.zero)).

Definition FFT_SIZE : nat := 2048.

Definition isZero (x : number) : bool :=
  match x with
  | S754_zero _ => true
  | _ => false
  end.

(** ** The background forest ([renderBackgroundForest])

    [Array.from({ length })] makes an array of the integral part of a
    length that is a number from 0 to 2^32 - 1 (none for NaN or a negative
    length) and throws beyond. *)

Definition arrayLength (n : number) : option nat :=
  match n with
  | S754_finite false m e =>
      let z := if 0 <=? e then Zpos m * 2 ^ e else Z.shiftr (Zpos m) (- e) in
      if z <? 2 ^ 32 then Some (Z.to_nat z) else None
  | S754_infinity false => None
  | _ => Some 0%nat
  end.

(** The indices [0], [1], ... of an array of [n] elements, as numbers. *)
Definition indices (n : nat) : list number :=
  map (fun i => Num.of_Z (Z.of_nat i)) (seq 0 n).

Record Forest : Type := mkForest {
  leftSizes : list number;   (* the sizes of the trees of the left group *)
  rightSizes : list number;  (* the sizes of the trees of the right group *)
  overflowBadge : option number
}.

Inductive Rendered : Type :=
| RenderNull
| RenderForest (f : Forest)
| RenderThrows.

Definition renderBackgroundForest (st : SessionStats) : Rendered :=
  if Num.eqb (treesPlanted st) (Num.of_Z 0) then RenderNull
  else
    let maxVisibleTrees := Num.of_Z 12 in
    let visibleCount := Num.min maxVisibleTrees (treesPlanted st) in
    let leftCount := Math_ceil (Num.div visibleCount (Num.of_Z 2)) in
    let rightCount := Num.floor (Num.div visibleCount (Num.of_Z 2)) in
    match arrayLength leftCount, arrayLength rightCount with
    | Some nl, Some nr =>
        RenderForest
          (mkForest
             (map (fun i =>
                     Num.add (Num.of_Z 30)
                       (Num.mul (Num.rem i (Num.of_Z 3)) (Num.of_Z 8)))
                  (indices nl))
             (map (fun i =>
                     Num.add (Num.of_Z 34)
                       (Num.mul (Num.rem i (Num.of_Z 3)) (Num.of_Z 8)))
                  (indices nr))
             (if Num.gtb (treesPlanted st) maxVisibleTrees
              then Some (Num.sub (treesPlanted st) maxVisibleTrees)
              else None))
    | _, _ => RenderThrows
    end.

(** * Properties *)

(** ** Order facts on binary64 values *)

Section Comparison.

Lemma SFcompare_antisym (a b : spec_float) :
  SFcompare b a = option_map CompOpp (SFcompare a b).
Proof.
  destruct a as [sa|sa| |sa ma ea], b as [sb|sb| |sb mb eb];
    try destruct sa; try destruct sb; simpl; try reflexivity;
    rewrite (Z.compare_antisym eb ea);
    destruct (eb ?= ea); simpl; try reflexivity;
    rewrite (Pos.compare_cont_antisym ma mb Eq); simpl;
    try rewrite CompOpp_involutive; reflexivity.
Qed.

Lemma SFcompare_None (a b : spec_float) :
  SFcompare a b = None -> Num.is_nan a = true \/ Num.is_nan b = true.
Proof.
  destruct a as [sa|sa| |sa ma ea], b as [sb|sb| |sb mb eb]; simpl;
    intros H; try discriminate H; auto.
Qed.

Lemma SFcompare_numbers (a b : spec_float) :
  Num.is_nan a = false -> Num.is_nan b = false -> SFcompare a b <> None.
Proof.
  intros Ha Hb H. apply SFcompare_None in H. destruct H; congruence.
Qed.

End Comparison.

(** Turn every comparison of the goal and of the context into a case of
    [SFcompare a b]. *)
Ltac by_compare a b :=
  unfold inTooLoud, inGood, inTooQuiet, Num.gtb, Num.geb, Num.ltb, Num.leb,
    Num.eqb, SFltb, SFleb, SFeqb in *;
  try rewrite (SFcompare_antisym a b) in *;
  let E := fresh "E" in
  destruct (SFcompare a b) as [[ | | ]|] eqn:E; simpl in *.

(** ** The classifier *)

Section Classifier.

Variables db nf off scream : number.
Let target := Num.add nf off.
Let v := classify db nf off scream.

Lemma classify_TooLoud : v = TooLoud <-> Num.gtb db scream = true.
Proof.
  unfold v, classify.
  destruct (Num.gtb db scream); [tauto|].
  destruct (Num.geb db (Num.add nf off)); split; discriminate.
Qed.

Lemma classify_Good :
  v = Good <-> Num.gtb db scream = false /\ Num.geb db target = true.
Proof.
  unfold v, target, classify.
  destruct (Num.gtb db scream).
  - split; [discriminate | intros [H _]; discriminate H].
  - destruct (Num.geb db (Num.add nf off)); split;
      try tauto; try discriminate; intros [_ H]; discriminate H.
Qed.

Lemma classify_TooQuiet :
  v = TooQuiet <-> Num.gtb db scream = false /\ Num.geb db target = false.
Proof.
  unfold v, target, classify.
  destruct (Num.gtb db scream).
  - split; [discriminate | intros [H _]; discriminate H].
  - destruct (Num.geb db (Num.add nf off)); split;
      try tauto; try discriminate; intros [_ H]; discriminate H.
Qed.

(** On numbers the verdict names the region the sample lies in, and the
    sample lies in no other. *)
Lemma classify_region :
  Num.is_nan db = false -> Num.is_nan target = false ->
  Num.is_nan scream = false ->
  match v with
  | TooLoud => inTooLoud db scream = true
               /\ inGood db target scream = false
               /\ inTooQuiet db target scream = false
  | Good => inTooLoud db scream = false
            /\ inGood db target scream = true
            /\ inTooQuiet db target scream = false
  | TooQuiet => inTooLoud db scream = false
                /\ inGood db target scream = false
                /\ inTooQuiet db target scream = true
  end.
Proof.
  intros Hd Ht Hs. unfold v, classify. fold target.
  pose proof (SFcompare_numbers db scream Hd Hs) as Cs.
  pose proof (SFcompare_numbers db target Hd Ht) as Ct.
  by_compare db scream; try congruence;
    by_compare db target; try congruence; auto.
Qed.

Lemma classify_at_scream : Num.eqb db scream = true -> v <> TooLoud.
Proof.
  intros Heq Hv. apply classify_TooLoud in Hv. revert Heq Hv.
  by_compare db scream; congruence.
Qed.

Lemma classify_at_target :
  Num.eqb db target = true -> Num.gtb db scream = false -> v = Good.
Proof.
  intros Heq Hs. apply classify_Good. split; [exact Hs|]. revert Heq.
  by_compare db target; congruence.
Qed.

End Classifier.

(** ** [tick] while reading: the source against classifier and accumulator *)

Section ReadingTick.

Variables (alpha db : number) (now : Z) (s : App).
Hypothesis reading : appState s = READING.

Lemma tick_reading :
  tick_with alpha db now s
  = setStats (accumulate timeDelta TREE_CYCLE_SECONDS (verdictOf s db))
             (setCurrentDb (smooth alpha db) s).
Proof.
  unfold tick_with, verdictOf, classify, targetDb. rewrite reading.
  destruct (Num.gtb db SCREAM_THRESHOLD_DB); [reflexivity|].
  destruct (Num.geb db (Num.add (noiseFloor s) TARGET_DB_OFFSET));
    reflexivity.
Qed.

Lemma getVolumeStatus_reading :
  getVolumeStatus s db = statusOfVerdict (verdictOf s db).
Proof.
  unfold getVolumeStatus, verdictOf, classify, targetDb. rewrite reading.
  simpl.
  destruct (Num.gtb db SCREAM_THRESHOLD_DB); [reflexivity|].
  destruct (Num.geb db (Num.add (noiseFloor s) TARGET_DB_OFFSET));
    reflexivity.
Qed.

End ReadingTick.

(** C2. The classifier is a function of its four arguments into the three
    verdicts (so it returns exactly one for every input), decided by
    [currentDb > screamThreshold] first (TooLoud), then by
    [currentDb >= noiseFloor + targetOffset] (Good), else TooQuiet.  On
    numbers the three regions [db > scream], [target <= db <= scream] and
    [db < target, db <= scream] partition the decibel line: the sample lies
    in exactly the region its verdict names.  A sample equal to the scream
    threshold is not TooLoud and a sample equal to the target, not above
    the scream threshold, is Good.  Both places of the source that
    classify, the scoring branch of [tick] and [getVolumeStatus], compute
    this function. *)
Theorem classifier_total_partition (db nf off scream : number) :
  Num.is_nan db = false ->
  Num.is_nan (Num.add nf off) = false ->
  Num.is_nan scream = false ->
  (exists v, classify db nf off scream = v
     /\ forall v', classify db nf off scream = v' -> v' = v)
  /\ (classify db nf off scream = TooLoud <-> Num.gtb db scream = true)
  /\ (classify db nf off scream = Good <->
        Num.gtb db scream = false /\ Num.geb db (Num.add nf off) = true)
  /\ (classify db nf off scream = TooQuiet <->
        Num.gtb db scream = false /\ Num.geb db (Num.add nf off) = false)
  /\ match classify db nf off scream with
     | TooLoud => inTooLoud db scream = true
                  /\ inGood db (Num.add nf off) scream = false
                  /\ inTooQuiet db (Num.add nf off) scream = false
     | Good => inTooLoud db scream = false
               /\ inGood db (Num.add nf off) scream = true
               /\ inTooQuiet db (Num.add nf off) scream = false
     | TooQuiet => inTooLoud db scream = false
                   /\ inGood db (Num.add nf off) scream = false
                   /\ inTooQuiet db (Num.add nf off) scream = true
     end
  /\ (Num.eqb db scream = true -> classify db nf off scream <> TooLoud)
  /\ (Num.eqb db (Num.add nf off) = true -> Num.gtb db scream = false ->
      classify db nf off scream = Good)
  /\ (forall (s : App) (now : Z),
        appState s = READING -> noiseFloor s = nf ->
        off = TARGET_DB_OFFSET -> scream = SCREAM_THRESHOLD_DB ->
        stats (tick db now s)
        = accumulate timeDelta TREE_CYCLE_SECONDS
            (classify db nf off scream) (stats s)
        /\ getVolumeStatus s db
           = statusOfVerdict (classify db nf off scream)).
Proof.
  intros Hd Ht Hs.
  split; [eexists; split; [reflexivity | intros v' <-; reflexivity]|].
  split; [apply classify_TooLoud|].
  split; [apply classify_Good|].
  split; [apply classify_TooQuiet|].
  split; [apply classify_region; assumption|].
  split; [apply classify_at_scream|].
  split; [apply classify_at_target|].
  intros s now Hr <- -> ->. split.
  - unfold tick. rewrite tick_reading by exact Hr. reflexivity.
  - apply getVolumeStatus_reading. exact Hr.
Qed.

(** A sample of exactly -50 dB with noise floor -60 and offset 10 is Good,
    and so is a sample of exactly -15 dB, the scream threshold. *)
Lemma classifier_total_partition_witness :
  classify (Num.of_Z (-50)) (Num.of_Z (-60)) (Num.of_Z 10) (Num.of_Z (-15))
  = Good
  /\ classify (Num.of_Z (-15)) (Num.of_Z (-60)) (Num.of_Z 10) (Num.of_Z (-15))
     <> TooLoud.
Proof.
  split.
  - apply (classifier_total_partition (Num.of_Z (-50)) (Num.of_Z (-60))
             (Num.of_Z 10) (Num.of_Z (-15)) eq_refl eq_refl eq_refl);
      reflexivity.
  - apply (classifier_total_partition (Num.of_Z (-15)) (Num.of_Z (-60))
             (Num.of_Z 10) (Num.of_Z (-15)) eq_refl eq_refl eq_refl);
      reflexivity.
Defined.

(** ** The accumulator *)

(** C3. On a Reading tick the time delta is the tick period in seconds
    (100 / 1000, the binary64 value nearest to 0.1) and SessionStats
    changes by verdict: TooLoud adds the delta to duration and
    tooLoudDuration; Good adds it to duration and validDuration and sets
    treesPlanted to floor (validDuration / treeCycleSeconds) of the updated
    total; TooQuiet adds it to duration only.  The other fields of
    SessionStats keep their values, and so do the session state, the noise
    floor, the error message, the calibration start and the sensor: the
    tick makes no transition.  (The tick also refreshes the smoothed
    display level, which is not part of the statistics.) *)
Theorem accumulator_update (db : number) (now : Z) (s : App) :
  appState s = READING ->
  timeDelta = Num.div UPDATE_INTERVAL_MS (Num.of_Z 1000)
  /\ timeDelta = S754_finite false 7205759403792794 (-56)
  /\ stats (tick db now s)
     = match verdictOf s db with
       | TooLoud =>
           mkStats (Num.add (duration (stats s)) timeDelta)
                   (validDuration (stats s))
                   (Num.add (tooLoudDuration (stats s)) timeDelta)
                   (treesPlanted (stats s))
       | Good =>
           mkStats (Num.add (duration (stats s)) timeDelta)
                   (Num.add (validDuration (stats s)) timeDelta)
                   (tooLoudDuration (stats s))
                   (Num.floor
                      (Num.div (Num.add (validDuration (stats s)) timeDelta)
                               TREE_CYCLE_SECONDS))
       | TooQuiet =>
           mkStats (Num.add (duration (stats s)) timeDelta)
                   (validDuration (stats s))
                   (tooLoudDuration (stats s))
                   (treesPlanted (stats s))
       end
  /\ appState (tick db now s) = READING
  /\ noiseFloor (tick db now s) = noiseFloor s
  /\ permissionError (tick db now s) = permissionError s
  /\ calibrationStartTimeRef (tick db now s) = calibrationStartTimeRef s
  /\ audio (tick db now s) = audio s.
Proof.
  intros Hr. unfold tick. rewrite (tick_reading _ _ _ _ Hr).
  repeat split; try reflexivity. exact Hr.
Qed.

(** A good sample, ten decibels above the default noise floor, on the
    first tick of a session. *)
Lemma accumulator_update_witness :
  stats (tick (Num.of_Z (-50)) 100 (setAppState READING initialApp))
  = mkStats timeDelta timeDelta Num.zero Num.zero.
Proof.
  destruct (accumulator_update (Num.of_Z (-50)) 100
              (setAppState READING initialApp) eq_refl)
    as (_ & _ & H & _).
  rewrite H. vm_compute. reflexivity.
Defined.

(** ** Calibration *)

Section Clamp.

Variables (ml mh : positive) (el eh : Z).
Hypothesis order : eh < el.
Let lo := S754_finite true ml el.
Let hi := S754_finite true mh eh.

(** [Math.max lo (Math.min hi db)] is the clamp of [db], for negative
    bounds [lo < hi]. *)
Lemma max_min_clamp (db : number) :
  Num.max lo (Num.min hi db) = clamp lo hi db.
Proof.
  assert (Hgt : (el ?= eh) = Gt) by (apply Z.compare_gt_iff; lia).
  unfold clamp, Num.max, Num.min, Num.ltb, Num.gtb, SFltb, lo, hi.
  destruct db as [[]|[]| |[] m e]; simpl; rewrite ?Hgt; try reflexivity.
  rewrite (Z.compare_antisym el e).
  assert (A : Pos.compare_cont Eq m ml = CompOpp (Pos.compare_cont Eq ml m))
    by (rewrite Pos.compare_cont_antisym; reflexivity).
  rewrite A; clear A.
  pose proof (Z.compare_spec eh e) as S1.
  pose proof (Z.compare_spec el e) as S2.
  destruct (eh ?= e); destruct (el ?= e); inversion S1; inversion S2;
    try lia; subst; simpl; rewrite ?Hgt; simpl;
    try destruct (Pos.compare_cont Eq mh m);
    try destruct (Pos.compare_cont Eq ml m) eqn:C2; simpl;
    rewrite ?Hgt; try reflexivity;
    apply Pos.compare_eq in C2; subst; reflexivity.
Qed.

Lemma lo_le_hi : Num.leb lo hi = true.
Proof.
  unfold Num.leb, SFleb, lo, hi; simpl.
  replace (el ?= eh) with Gt by (symmetry; apply Z.compare_gt_iff; lia).
  reflexivity.
Qed.

Lemma leb_refl_finite (s : bool) (m : positive) (e : Z) :
  Num.leb (S754_finite s m e) (S754_finite s m e) = true.
Proof.
  unfold Num.leb, SFleb; simpl. rewrite Z.compare_refl.
  change (Pos.compare_cont Eq m m) with (Pos.compare m m).
  rewrite Pos.compare_refl. destruct s; reflexivity.
Qed.

Lemma clamp_range (db : number) :
  Num.is_nan db = false ->
  Num.leb lo (clamp lo hi db) = true /\ Num.leb (clamp lo hi db) hi = true.
Proof.
  intros Hd. unfold clamp.
  pose proof (SFcompare_numbers db lo Hd eq_refl) as Cl.
  pose proof (SFcompare_numbers db hi Hd eq_refl) as Ch.
  pose proof lo_le_hi as Hlh.
  pose proof (leb_refl_finite true ml el) as Rl. fold lo in Rl.
  pose proof (leb_refl_finite true mh eh) as Rh. fold hi in Rh.
  destruct (Num.ltb db lo) eqn:L; [auto|].
  destruct (Num.gtb db hi) eqn:G; [auto|].
  clear Hlh Rl Rh. split.
  - revert L. by_compare db lo; congruence.
  - revert G. by_compare db hi; congruence.
Qed.

Lemma clamp_inside (db : number) :
  Num.leb lo db = true -> Num.leb db hi = true -> clamp lo hi db = db.
Proof.
  unfold clamp. intros L H.
  replace (Num.ltb db lo) with false
    by (revert L; by_compare db lo; congruence).
  replace (Num.gtb db hi) with false
    by (revert H; by_compare db hi; congruence).
  reflexivity.
Qed.

End Clamp.

Lemma of_Z_minus80 : Num.of_Z (-80) = S754_finite true 5629499534213120 (-46).
Proof. reflexivity. Qed.

Lemma of_Z_minus30 : Num.of_Z (-30) = S754_finite true 8444249301319680 (-48).
Proof. reflexivity. Qed.

Lemma detectedFloor_clamp (db : number) :
  Num.max (Num.of_Z (-80)) (Num.min (Num.of_Z (-30)) db)
  = clamp (Num.of_Z (-80)) (Num.of_Z (-30)) db.
Proof.
  rewrite of_Z_minus80, of_Z_minus30. apply max_min_clamp. lia.
Qed.

Lemma tick_calibration_expiry (alpha db : number) (now : Z) (s : App) :
  appState s = CALIBRATING ->
  CALIBRATION_DURATION_MS < now - calibrationStartTimeRef s ->
  tick_with alpha db now s
  = setAppState IDLE
      (setNoiseFloor (clamp (Num.of_Z (-80)) (Num.of_Z (-30)) db)
         (setCurrentDb (smooth alpha db) s)).
Proof.
  intros Hc He. unfold tick_with. rewrite Hc.
  apply Z.ltb_lt in He. rewrite He. rewrite detectedFloor_clamp. reflexivity.
Qed.

(** A calibration window fed a constant sample: thirty ticks that do not
    expire, the tick that does, and ticks that no longer fire. *)

Lemma run_with_app (alpha : number) (l1 l2 : list Event) (s : App) :
  run_with alpha (l1 ++ l2) s = run_with alpha l2 (run_with alpha l1 s).
Proof. unfold run_with. apply fold_left_app. Qed.

Section ConstantStream.

Variables (alpha c : number) (t0 : Z).

Let tickAt (i : nat) : Event := Tick c (t0 + 100 * Z.of_nat i).

Lemma ticks_before_expiry (len : nat) :
  forall (a : nat) (s : App),
    appState s = CALIBRATING ->
    calibrationStartTimeRef s = t0 ->
    (a + len <= 31)%nat ->
    let r := run_with alpha (map tickAt (seq a len)) s in
    appState r = CALIBRATING
    /\ calibrationStartTimeRef r = t0
    /\ noiseFloor r = noiseFloor s
    /\ stats r = stats s.
Proof.
  induction len as [|len IH]; intros a s Hc Ht Hle; [simpl; auto|].
  cbn [seq map]. unfold run_with in *. cbn [fold_left].
  assert (E : step_with alpha (tickAt a) s = setCurrentDb (smooth alpha c) s).
  { unfold tickAt, step_with, timerArmed, tick_with. rewrite Hc, Ht.
    replace (CALIBRATION_DURATION_MS <? t0 + 100 * Z.of_nat a - t0) with false;
      [reflexivity|].
    symmetry. apply Z.ltb_ge. unfold CALIBRATION_DURATION_MS. lia. }
  rewrite E.
  destruct (IH (S a) (setCurrentDb (smooth alpha c) s) Hc Ht ltac:(lia))
    as (H1 & H2 & H3 & H4).
  auto.
Qed.

Lemma ticks_when_idle (l : list nat) (s : App) :
  appState s = IDLE -> run_with alpha (map tickAt l) s = s.
Proof.
  intros Hi. induction l as [|i l IH]; [reflexivity|].
  unfold run_with in *. cbn [map fold_left].
  unfold tickAt at 2. unfold step_with, timerArmed. rewrite Hi. exact IH.
Qed.

Lemma calibration_constant_stream (n : nat) (s : App) :
  (31 <= n)%nat ->
  let r := run_with alpha (calibrationStream c t0 n) s in
  appState r = IDLE
  /\ noiseFloor r = clamp (Num.of_Z (-80)) (Num.of_Z (-30)) c
  /\ stats r = stats s.
Proof.
  intros Hn.
  assert (Hsplit : calibrationStream c t0 n
                   = [StartCalibration true t0]
                     ++ map tickAt (seq 1 30)
                     ++ [tickAt 31]
                     ++ map tickAt (seq 32 (n - 31))).
  { unfold calibrationStream. fold tickAt.
    replace n with (30 + (1 + (n - 31)))%nat at 1 by lia.
    rewrite !seq_app, !map_app. reflexivity. }
  rewrite Hsplit, !run_with_app. clear Hsplit.
  set (s1 := run_with alpha [StartCalibration true t0] s).
  assert (Hc : appState s1 = CALIBRATING /\ calibrationStartTimeRef s1 = t0
               /\ stats s1 = stats s).
  { unfold s1, run_with, step_with, handleStartCalibration, audio_start.
    simpl. destruct (audioContext (audio s)); simpl; auto. }
  destruct Hc as (Hc & Ht & Hs).
  destruct (ticks_before_expiry 30 1 s1 Hc Ht ltac:(lia)) as (H1 & H2 & H3 & H4).
  set (s2 := run_with alpha (map tickAt (seq 1 30)) s1) in *.
  assert (E : run_with alpha [tickAt 31] s2
              = setAppState IDLE
                  (setNoiseFloor (clamp (Num.of_Z (-80)) (Num.of_Z (-30)) c)
                     (setCurrentDb (smooth alpha c) s2))).
  { unfold run_with. cbn [fold_left].
    unfold tickAt, step_with, timerArmed. rewrite H1.
    apply tick_calibration_expiry; [exact H1|].
    rewrite H2. unfold CALIBRATION_DURATION_MS. lia. }
  rewrite E, ticks_when_idle by reflexivity.
  cbn [appState noiseFloor stats setAppState setNoiseFloor setCurrentDb].
  repeat split. rewrite H4. exact Hs.
Qed.

End ConstantStream.

(** C5. When a calibration run expires (a tick in Calibrating more than
    3000 ms after the start), the new noise floor is the sample of that
    tick clamped into [-80, -30] and the state becomes Idle; the session
    statistics are untouched.  The clamped value lies in [-80, -30] for
    every sample that is a number, and is the sample itself when the
    sample lies in that range.  A constant stream of -45 dB over a full
    calibration window (31 ticks of 100 ms, or more) leaves the noise
    floor at the clamp of that sample, whatever the state and the time the
    run is started in: at -45 for -45 dB, at -80 for -95 dB and at -30 for
    -5 dB. *)
Theorem calibration_expiry (db : number) (now : Z) (s : App) :
  appState s = CALIBRATING ->
  CALIBRATION_DURATION_MS < now - calibrationStartTimeRef s ->
  appState (tick db now s) = IDLE
  /\ noiseFloor (tick db now s) = clamp (Num.of_Z (-80)) (Num.of_Z (-30)) db
  /\ stats (tick db now s) = stats s
  /\ (Num.is_nan db = false ->
      Num.leb (Num.of_Z (-80)) (noiseFloor (tick db now s)) = true
      /\ Num.leb (noiseFloor (tick db now s)) (Num.of_Z (-30)) = true)
  /\ (Num.leb (Num.of_Z (-80)) db = true ->
      Num.leb db (Num.of_Z (-30)) = true ->
      noiseFloor (tick db now s) = db)
  /\ (db = Num.of_Z (-45) -> noiseFloor (tick db now s) = Num.of_Z (-45))
  /\ (db = Num.of_Z (-95) -> noiseFloor (tick db now s) = Num.of_Z (-80))
  /\ (db = Num.of_Z (-5) -> noiseFloor (tick db now s) = Num.of_Z (-30))
  /\ (forall (c : number) (t0 : Z) (n : nat) (s0 : App),
        (31 <= n)%nat ->
        let r := run (calibrationStream c t0 n) s0 in
        appState r = IDLE
        /\ noiseFloor r = clamp (Num.of_Z (-80)) (Num.of_Z (-30)) c
        /\ stats r = stats s0)
  /\ (let r := run (calibrationStream (Num.of_Z (-45)) 0 31) initialApp in
      appState r = IDLE /\ noiseFloor r = Num.of_Z (-45))
  /\ (let r := run (calibrationStream (Num.of_Z (-95)) 0 31) initialApp in
      appState r = IDLE /\ noiseFloor r = Num.of_Z (-80))
  /\ (let r := run (calibrationStream (Num.of_Z (-5)) 0 31) initialApp in
      appState r = IDLE /\ noiseFloor r = Num.of_Z (-30)).
Proof.
  intros Hc He. unfold tick.
  rewrite (tick_calibration_expiry _ _ _ _ Hc He).
  unfold setAppState, setNoiseFloor, setCurrentDb, appState, noiseFloor, stats.
  split; [reflexivity|]. split; [reflexivity|]. split; [reflexivity|].
  split.
  { intros Hd. rewrite of_Z_minus80, of_Z_minus30.
    apply clamp_range; [lia | exact Hd]. }
  split.
  { rewrite of_Z_minus80, of_Z_minus30. apply clamp_inside; lia. }
  split; [intros ->; vm_compute; reflexivity|].
  split; [intros ->; vm_compute; reflexivity|].
  split; [intros ->; vm_compute; reflexivity|].
  split; [intros c t0 n s0 Hn; apply calibration_constant_stream; exact Hn|].
  split; [|split]; vm_compute; split; reflexivity.
Qed.

(** The expiry tick of a calibration started at time 0, at -95 dB. *)
Lemma calibration_expiry_witness :
  noiseFloor
    (tick (Num.of_Z (-95)) 3100
       (handleStartCalibration true 0 initialApp))
  = Num.of_Z (-80).
Proof.
  destruct (calibration_expiry (Num.of_Z (-95)) 3100
              (handleStartCalibration true 0 initialApp) eq_refl eq_refl)
    as (_ & _ & _ & _ & _ & _ & H & _).
  apply H. reflexivity.
Defined.

(** ** Actions *)

(** C6. When the microphone cannot be acquired, [handleStartCalibration]
    and [handleStartReading] leave the session state as it was (Idle stays
    Idle), put a message in [permissionError], and change neither the
    statistics nor the noise floor.  The timer stays unarmed in Idle, so a
    timer event does nothing: the failure does not reach the tick loop.
    Exactly one capture request is issued: there is no retry. *)
Theorem acquisition_failure_keeps_state (now : Z) (s : App) :
  audioContext (audio s) = false ->
  (let s' := handleStartCalibration false now s in
   appState s' = appState s
   /\ (appState s = IDLE -> appState s' = IDLE /\ timerArmed s' = false
       /\ forall db t, step (Tick db t) s' = s')
   /\ permissionError s' = Some calibrationErrorMessage
   /\ stats s' = stats s
   /\ noiseFloor s' = noiseFloor s
   /\ calibrationStartTimeRef s' = calibrationStartTimeRef s
   /\ captureRequests (audio s') = S (captureRequests (audio s)))
  /\
  (let s' := handleStartReading false s in
   appState s' = appState s
   /\ (appState s = IDLE -> appState s' = IDLE /\ timerArmed s' = false
       /\ forall db t, step (Tick db t) s' = s')
   /\ permissionError s' = Some readingErrorMessage
   /\ stats s' = stats s
   /\ noiseFloor s' = noiseFloor s
   /\ calibrationStartTimeRef s' = calibrationStartTimeRef s
   /\ captureRequests (audio s') = S (captureRequests (audio s))).
Proof.
  intros Ha.
  unfold handleStartCalibration, handleStartReading, audio_start; simpl.
  rewrite Ha; simpl.
  split; (split; [reflexivity|]); (split; [|repeat split]);
    intros Hi; unfold step, step_with, timerArmed; simpl; rewrite Hi;
    repeat split.
Qed.

Lemma acquisition_failure_keeps_state_witness :
  appState (handleStartCalibration false 0 initialApp) = IDLE
  /\ appState (handleStartReading false initialApp) = IDLE.
Proof.
  destruct (acquisition_failure_keeps_state 0 initialApp eq_refl)
    as [(H1 & _) (H2 & _)].
  split; [exact H1 | exact H2].
Defined.

(** What a single event can do to the statistics. *)
Lemma step_stats (alpha : number) (e : Event) (s : App) :
  stats (step_with alpha e s) = stats s
  \/ stats (step_with alpha e s) = zeroStats
  \/ exists db now,
       e = Tick db now /\ appState s = READING
       /\ stats (step_with alpha e s)
          = accumulate timeDelta TREE_CYCLE_SECONDS (verdictOf s db) (stats s).
Proof.
  destruct e as [db now|granted now|granted| | |]; simpl.
  - destruct (appState s) eqn:Hs; unfold timerArmed; rewrite Hs; auto.
    + left. unfold tick_with. rewrite Hs.
      destruct (CALIBRATION_DURATION_MS <? now - calibrationStartTimeRef s);
        reflexivity.
    + right; right. exists db, now. rewrite (tick_reading _ _ _ _ Hs). auto.
  - left. unfold handleStartCalibration, audio_start; simpl.
    destruct (audioContext (audio s)); [|destruct granted]; reflexivity.
  - left. unfold handleStartReading, audio_start; simpl.
    destruct (audioContext (audio s)); [|destruct granted]; reflexivity.
  - left. reflexivity.
  - right; left. reflexivity.
  - right; left. reflexivity.
Qed.

(** C7. [handleReset] and [handleContinue] put zero in all four fields of
    SessionStats at once and leave the state at Idle, whatever the state
    and the statistics were; every field reads zero afterwards.  No event
    resets part of the statistics: an event leaves them as they are,
    zeroes all four, or is a Reading tick that accumulates. *)
Theorem reset_zeroes_all_stats (s : App) :
  stats (handleReset s) = mkStats Num.zero Num.zero Num.zero Num.zero
  /\ appState (handleReset s) = IDLE
  /\ stats (handleContinue s) = mkStats Num.zero Num.zero Num.zero Num.zero
  /\ appState (handleContinue s) = IDLE
  /\ (Num.eqb (duration (stats (handleReset s))) Num.zero
      && Num.eqb (validDuration (stats (handleReset s))) Num.zero
      && Num.eqb (tooLoudDuration (stats (handleReset s))) Num.zero
      && Num.eqb (treesPlanted (stats (handleReset s))) Num.zero = true)
  /\ (Num.eqb (duration (stats (handleContinue s))) Num.zero
      && Num.eqb (validDuration (stats (handleContinue s))) Num.zero
      && Num.eqb (tooLoudDuration (stats (handleContinue s))) Num.zero
      && Num.eqb (treesPlanted (stats (handleContinue s))) Num.zero = true)
  /\ (forall e : Event,
        stats (step e s) = stats s
        \/ stats (step e s) = mkStats Num.zero Num.zero Num.zero Num.zero
        \/ exists db now,
             e = Tick db now /\ appState s = READING
             /\ stats (step e s)
                = accumulate timeDelta TREE_CYCLE_SECONDS (verdictOf s db)
                    (stats s)).
Proof.
  repeat split. intros e. apply step_stats.
Qed.

(** C10. [handleStop] moves the session to Completed and changes no field
    of SessionStats (nor the noise floor): the summary shows the totals
    accumulated up to the stop. *)
Theorem stop_keeps_stats (s : App) :
  appState (handleStop s) = COMPLETED
  /\ stats (handleStop s) = stats s
  /\ duration (stats (handleStop s)) = duration (stats s)
  /\ validDuration (stats (handleStop s)) = validDuration (stats s)
  /\ tooLoudDuration (stats (handleStop s)) = tooLoudDuration (stats s)
  /\ treesPlanted (stats (handleStop s)) = treesPlanted (stats s)
  /\ noiseFloor (handleStop s) = noiseFloor s
  /\ timerArmed (handleStop s) = false.
Proof.
  repeat split.
Qed.

(** ** The noise floor *)

(** The only event that can write the noise floor. *)
Lemma step_noiseFloor (alpha : number) (e : Event) (s : App) :
  noiseFloor (step_with alpha e s) = noiseFloor s
  \/ exists db now,
       e = Tick db now /\ appState s = CALIBRATING
       /\ CALIBRATION_DURATION_MS < now - calibrationStartTimeRef s
       /\ appState (step_with alpha e s) = IDLE
       /\ noiseFloor (step_with alpha e s)
          = clamp (Num.of_Z (-80)) (Num.of_Z (-30)) db.
Proof.
  destruct e as [db now|granted now|granted| | |]; simpl.
  - destruct (appState s) eqn:Hs; unfold timerArmed; rewrite Hs; auto.
    + destruct (Z.ltb_spec CALIBRATION_DURATION_MS
                  (now - calibrationStartTimeRef s)) as [He|He].
      * right. exists db, now.
        rewrite (tick_calibration_expiry _ _ _ _ Hs He). auto.
      * left. unfold tick_with. rewrite Hs.
        apply Z.ltb_ge in He. rewrite He. reflexivity.
    + left. rewrite (tick_reading _ _ _ _ Hs). reflexivity.
  - left. unfold handleStartCalibration, audio_start; simpl.
    destruct (audioContext (audio s)); [|destruct granted]; reflexivity.
  - left. unfold handleStartReading, audio_start; simpl.
    destruct (audioContext (audio s)); [|destruct granted]; reflexivity.
  - left. reflexivity.
  - left. reflexivity.
  - left. reflexivity.
Qed.

Lemma step_not_calibrating (alpha : number) (e : Event) (s : App) :
  isStartCalibration e = false ->
  appState s <> CALIBRATING ->
  appState (step_with alpha e s) <> CALIBRATING
  /\ noiseFloor (step_with alpha e s) = noiseFloor s.
Proof.
  intros He Hs.
  destruct e as [db now|granted now|granted| | |]; simpl;
    try discriminate He.
  - destruct (appState s) eqn:Hst; unfold timerArmed; rewrite Hst;
      try (split; congruence).
    rewrite (tick_reading _ _ _ _ Hst). simpl. split; congruence.
  - unfold handleStartReading, audio_start; simpl.
    destruct (audioContext (audio s)); [|destruct granted]; simpl;
      split; solve [discriminate | reflexivity | assumption].
  - split; [discriminate | reflexivity].
  - split; [discriminate | reflexivity].
  - split; [discriminate | reflexivity].
Qed.

Lemma run_without_calibration (alpha : number) (es : list Event) (s : App) :
  forallb (fun e => negb (isStartCalibration e)) es = true ->
  appState s <> CALIBRATING ->
  noiseFloor (run_with alpha es s) = noiseFloor s.
Proof.
  revert s. induction es as [|e es IH]; intros s Hes Hs; [reflexivity|].
  simpl in Hes. apply andb_prop in Hes. destruct Hes as [He Hes].
  apply negb_true_iff in He.
  destruct (step_not_calibrating alpha e s He Hs) as [Hs' Hn].
  unfold run_with in *. simpl. rewrite (IH _ Hes Hs'). exact Hn.
Qed.

(** C8. The noise floor starts at the configured default (-60) and is
    written only by the tick that completes a calibration run: every
    other event (a Reading tick, a Calibrating tick before expiry, start
    of calibration or reading whether acquisition succeeds or not, stop,
    reset, continue) leaves it as it was.  Hence a run in which no
    calibration is started still has the default. *)
Theorem noiseFloor_written_only_by_calibration (e : Event) (s : App) :
  noiseFloor initialApp = DEFAULT_NOISE_FLOOR_DB
  /\ DEFAULT_NOISE_FLOOR_DB = Num.of_Z (-60)
  /\ (noiseFloor (step e s) = noiseFloor s
      \/ exists db now,
           e = Tick db now /\ appState s = CALIBRATING
           /\ CALIBRATION_DURATION_MS < now - calibrationStartTimeRef s
           /\ appState (step e s) = IDLE
           /\ noiseFloor (step e s)
              = clamp (Num.of_Z (-80)) (Num.of_Z (-30)) db)
  /\ (forall granted, noiseFloor (handleStartReading granted s) = noiseFloor s)
  /\ (forall granted now,
        noiseFloor (handleStartCalibration granted now s) = noiseFloor s)
  /\ noiseFloor (handleStop s) = noiseFloor s
  /\ noiseFloor (handleReset s) = noiseFloor s
  /\ noiseFloor (handleContinue s) = noiseFloor s
  /\ (forall db now,
        appState s = READING -> noiseFloor (tick db now s) = noiseFloor s)
  /\ (forall es : list Event,
        forallb (fun e => negb (isStartCalibration e)) es = true ->
        noiseFloor (run es initialApp) = DEFAULT_NOISE_FLOOR_DB).
Proof.
  split; [reflexivity|]. split; [reflexivity|].
  split; [apply step_noiseFloor|].
  split.
  { intros granted. unfold handleStartReading, audio_start; simpl.
    destruct (audioContext (audio s)); [|destruct granted]; reflexivity. }
  split.
  { intros granted now. unfold handleStartCalibration, audio_start; simpl.
    destruct (audioContext (audio s)); [|destruct granted]; reflexivity. }
  split; [reflexivity|]. split; [reflexivity|]. split; [reflexivity|].
  split.
  { intros db now Hr. unfold tick. rewrite (tick_reading _ _ _ _ Hr).
    reflexivity. }
  intros es Hes. unfold run.
  rewrite (run_without_calibration _ es initialApp Hes); [reflexivity|].
  discriminate.
Qed.

(** A session that reads, stops and continues keeps the default. *)
Lemma noiseFloor_written_only_by_calibration_witness :
  noiseFloor
    (run [StartReading true; Tick (Num.of_Z (-40)) 100; Stop; Continue]
         initialApp)
  = DEFAULT_NOISE_FLOOR_DB.
Proof.
  destruct (noiseFloor_written_only_by_calibration Stop initialApp)
    as (_ & _ & _ & _ & _ & _ & _ & _ & _ & H).
  apply H. reflexivity.
Defined.

(** ** The smoother *)

Lemma step_scoringView (a1 a2 : number) (e : Event) (s1 s2 : App) :
  scoringView s1 = scoringView s2 ->
  scoringView (step_with a1 e s1) = scoringView (step_with a2 e s2).
Proof.
  destruct s1 as [st1 c1 nf1 ss1 pe1 cs1 au1].
  destruct s2 as [st2 c2 nf2 ss2 pe2 cs2 au2].
  unfold scoringView; simpl. intros H. inversion H; subst; clear H.
  destruct e as [db now|granted now|granted| | |]; simpl.
  - unfold timerArmed, tick_with, targetDb; simpl.
    destruct st2; try reflexivity.
    + destruct (CALIBRATION_DURATION_MS <? now - cs2); reflexivity.
    + destruct (Num.gtb db SCREAM_THRESHOLD_DB); [reflexivity|].
      destruct (Num.geb db (Num.add nf2 TARGET_DB_OFFSET)); reflexivity.
  - unfold handleStartCalibration, audio_start; simpl.
    destruct (audioContext au2); [|destruct granted]; reflexivity.
  - unfold handleStartReading, audio_start; simpl.
    destruct (audioContext au2); [|destruct granted]; reflexivity.
  - reflexivity.
  - reflexivity.
  - reflexivity.
Qed.

(** C9. The smoothed level has no effect on scoring.  Two components that
    agree on everything but the smoothed level [currentDb], fed the same
    events (hence the same raw samples), agree again on everything but the
    smoothed level after the run, whatever smoothing factor each one
    uses: the statistics, the noise floor and the session state are the
    same. *)
Theorem smoothing_does_not_affect_scoring
  (alpha1 alpha2 : number) (es : list Event) (s1 s2 : App) :
  scoringView s1 = scoringView s2 ->
  scoringView (run_with alpha1 es s1) = scoringView (run_with alpha2 es s2)
  /\ stats (run_with alpha1 es s1) = stats (run_with alpha2 es s2)
  /\ noiseFloor (run_with alpha1 es s1) = noiseFloor (run_with alpha2 es s2)
  /\ appState (run_with alpha1 es s1) = appState (run_with alpha2 es s2).
Proof.
  intros H.
  assert (V : scoringView (run_with alpha1 es s1)
              = scoringView (run_with alpha2 es s2)).
  { revert s1 s2 H. induction es as [|e es IH]; intros s1 s2 H.
    - exact H.
    - unfold run_with in *. simpl. apply IH.
      apply step_scoringView. exact H. }
  split; [exact V|].
  unfold scoringView in V. inversion V. auto.
Qed.

(** Two runs of the same session, one smoothing with the factor of the
    program and starting from the initial level, the other not smoothing
    at all (factor 1) and starting from another level. *)
Lemma smoothing_does_not_affect_scoring_witness :
  stats
    (run_with EMA_ALPHA
       [StartReading true; Tick (Num.of_Z (-40)) 100; Tick (Num.of_Z (-10)) 200]
       initialApp)
  = stats
      (run_with (Num.of_Z 1)
         [StartReading true; Tick (Num.of_Z (-40)) 100; Tick (Num.of_Z (-10)) 200]
         (setCurrentDb (fun _ => Num.of_Z (-20)) initialApp)).
Proof.
  apply (smoothing_does_not_affect_scoring EMA_ALPHA (Num.of_Z 1)
           [StartReading true; Tick (Num.of_Z (-40)) 100;
            Tick (Num.of_Z (-10)) 200]
           initialApp (setCurrentDb (fun _ => Num.of_Z (-20)) initialApp)
           eq_refl).
Defined.

(** ** Binary64 addition of the time delta

    What the counters need from the arithmetic: a counter is never
    lowered by adding the time delta to it. *)

Section Digits.

Lemma digits2_pos_size (p : positive) : digits2_pos p = Pos.size p.
Proof. induction p; simpl; congruence. Qed.

Lemma digits_bounds (p : positive) :
  2 ^ (Zpos (digits2_pos p) - 1) <= Zpos p < 2 ^ Zpos (digits2_pos p).
Proof.
  rewrite digits2_pos_size. split.
  - pose proof (Pos.size_le p) as H.
    assert (H' : 2 ^ Zpos (Pos.size p) <= 2 * Zpos p).
    { rewrite <- Pos2Z.inj_pow. change (2 * Zpos p) with (Zpos p~0). exact H. }
    replace (Zpos (Pos.size p)) with (Z.succ (Zpos (Pos.size p) - 1)) in H' by lia.
    rewrite Z.pow_succ_r in H' by lia. lia.
  - pose proof (Pos.size_gt p) as H.
    rewrite <- Pos2Z.inj_pow. exact H.
Qed.

Lemma digits_unique (p : positive) (d : Z) :
  2 ^ (d - 1) <= Zpos p < 2 ^ d -> Zpos (digits2_pos p) = d.
Proof.
  intros [Hl Hu]. pose proof (digits_bounds p) as [Bl Bu].
  assert (0 < d).
  { destruct (Z.ltb_spec 0 d); [assumption|].
    assert (2 ^ d <= 2 ^ 0) by (destruct (Z.eq_dec d 0); [subst; lia| rewrite (Z.pow_neg_r 2 d) by lia; simpl; lia]).
    simpl in *. lia. }
  destruct (Z.lt_trichotomy (Zpos (digits2_pos p)) d) as [Hlt|[Heq|Hgt]]; [|assumption|].
  - assert (2 ^ Zpos (digits2_pos p) <= 2 ^ (d - 1)) by (apply Z.pow_le_mono_r; lia). lia.
  - assert (2 ^ d <= 2 ^ (Zpos (digits2_pos p) - 1)) by (apply Z.pow_le_mono_r; lia). lia.
Qed.

End Digits.

Section Shift.

Lemma iter_pos_nat {A} (f : A -> A) (p : positive) (x : A) :
  iter_pos f p x = Nat.iter (Pos.to_nat p) f x.
Proof.
  revert x. induction p as [p IH|p IH|]; intros x.
  - change (iter_pos f p~1 x) with (iter_pos f p (iter_pos f p (f x))).
    rewrite !IH, Pos2Nat.inj_xI, Nat.iter_succ_r.
    replace (2 * Pos.to_nat p)%nat with (Pos.to_nat p + Pos.to_nat p)%nat
      by lia.
    rewrite Nat.iter_add. reflexivity.
  - change (iter_pos f p~0 x) with (iter_pos f p (iter_pos f p x)).
    rewrite !IH, Pos2Nat.inj_xO.
    replace (2 * Pos.to_nat p)%nat with (Pos.to_nat p + Pos.to_nat p)%nat
      by lia.
    rewrite Nat.iter_add. reflexivity.
  - reflexivity.
Qed.

Lemma shr_1_m (r : shr_record) :
  0 <= shr_m r -> shr_m (shr_1 r) = shr_m r / 2.
Proof.
  destruct r as [m rb sb]; simpl. intros Hm.
  destruct m as [|[p|p|]|p]; try lia; simpl; try reflexivity.
  - rewrite Pos2Z.inj_xI. symmetry.
    rewrite Z.mul_comm, Z.div_add_l by lia. reflexivity.
  - rewrite Pos2Z.inj_xO. symmetry.
    rewrite Z.mul_comm, Z.div_mul by lia. reflexivity.
Qed.

Lemma shr_1_r (r : shr_record) :
  0 <= shr_m r -> shr_r (shr_1 r) = Z.odd (shr_m r).
Proof.
  destruct r as [m rb sb]; simpl. intros Hm.
  destruct m as [|[p|p|]|p]; try lia; reflexivity.
Qed.

Lemma iter_shr_m (n : nat) (r : shr_record) :
  0 <= shr_m r ->
  shr_m (Nat.iter n shr_1 r) = shr_m r / 2 ^ Z.of_nat n.
Proof.
  intros Hm. induction n as [|n IH].
  - simpl. rewrite Z.div_1_r. reflexivity.
  - assert (P : 0 < 2 ^ Z.of_nat n) by (apply Z.pow_pos_nonneg; lia).
    rewrite Nat2Z.inj_succ, Z.pow_succ_r by lia.
    change (Nat.iter (S n) shr_1 r) with (shr_1 (Nat.iter n shr_1 r)).
    rewrite shr_1_m.
    + rewrite IH, Z.div_div by lia. f_equal. lia.
    + rewrite IH. apply Z.div_pos; lia.
Qed.

Lemma iter_shr_r (n : nat) (r : shr_record) :
  0 <= shr_m r ->
  shr_r (Nat.iter (S n) shr_1 r) = Z.odd (shr_m r / 2 ^ Z.of_nat n).
Proof.
  intros Hm.
  change (Nat.iter (S n) shr_1 r) with (shr_1 (Nat.iter n shr_1 r)).
  rewrite shr_1_r.
  - rewrite iter_shr_m by assumption. reflexivity.
  - rewrite iter_shr_m by assumption.
    apply Z.div_pos; [lia | apply Z.pow_pos_nonneg; lia].
Qed.

End Shift.

Section Rounding.

Let prec := Num.prec.
Let emax := Num.emax.

Lemma fexp_normal (x : Z) : -1074 <= x - 53 -> fexp prec emax x = x - 53.
Proof. unfold fexp, emin, prec, emax, Num.prec, Num.emax. lia. Qed.

Lemma shr_exact (M : positive) (e0 n : Z) :
  0 <= n ->
  let res := shr (Build_shr_record (Zpos M) false false) e0 n in
  shr_m (fst res) = Zpos M / 2 ^ n
  /\ snd res = e0 + n
  /\ (n = 0 -> loc_of_shr_record (fst res) = loc_Exact)
  /\ (0 < n -> shr_r (fst res) = Z.odd (Zpos M / 2 ^ (n - 1))).
Proof.
  intros Hn. destruct n as [|p|p]; try lia.
  - cbn [shr fst snd shr_m loc_of_shr_record].
    rewrite Z.add_0_r, Z.div_1_r. repeat split; lia.
  - cbn [shr fst snd]. rewrite iter_pos_nat.
    split; [|split; [reflexivity|split; [discriminate|intros _]]].
    + rewrite iter_shr_m by (simpl; lia). cbn [shr_m].
      rewrite positive_nat_Z. reflexivity.
    + destruct (Pos.to_nat p) as [|k] eqn:E; [lia|].
      rewrite iter_shr_r by (simpl; lia). cbn [shr_m].
      pose proof (positive_nat_Z p) as Hp. rewrite E in Hp.
      do 3 f_equal. lia.
Qed.

Lemma round_nearest_even_bounds (r : shr_record) :
  let m2 := round_nearest_even (shr_m r) (loc_of_shr_record r) in
  shr_m r <= m2 <= shr_m r + 1 /\ (shr_r r = false -> m2 = shr_m r).
Proof.
  destruct r as [m [] []]; simpl; try destruct (Z.even m);
    split; try lia; intros; try discriminate; reflexivity.
Qed.


Lemma normal_quotient (M : positive) :
  53 <= Zpos (digits2_pos M) ->
  2 ^ 52 <= Zpos M / 2 ^ (Zpos (digits2_pos M) - 53) < 2 ^ 53.
Proof.
  intros Hd. pose proof (digits_bounds M) as [Bl Bu].
  set (d := Zpos (digits2_pos M)) in *.
  assert (P : 0 < 2 ^ (d - 53)) by (apply Z.pow_pos_nonneg; lia).
  assert (E1 : 2 ^ (d - 1) = 2 ^ (d - 53) * 2 ^ 52)
    by (rewrite <- Z.pow_add_r by lia; f_equal; lia).
  assert (E2 : 2 ^ d = 2 ^ (d - 53) * 2 ^ 53)
    by (rewrite <- Z.pow_add_r by lia; f_equal; lia).
  split.
  - apply Z.div_le_lower_bound; lia.
  - apply Z.div_lt_upper_bound; lia.
Qed.

Lemma second_shift (p2 : positive) (e1 : Z) :
  -1074 <= e1 -> e1 + 1 <= 971 ->
  2 ^ 52 <= Zpos p2 <= 2 ^ 53 ->
  let res := shr_fexp prec emax (Zpos p2) e1 loc_Exact in
  (Zpos p2 < 2 ^ 53 -> shr_m (fst res) = Zpos p2 /\ snd res = e1)
  /\ (Zpos p2 = 2 ^ 53 -> shr_m (fst res) = 2 ^ 52 /\ snd res = e1 + 1).
Proof.
  intros He Ho Hp. unfold shr_fexp. cbn [Zdigits2 shr_record_of_loc].
  split; intros Hc.
  - rewrite (digits_unique p2 53) by (change (53 - 1) with 52; lia).
    rewrite fexp_normal by lia.
    replace (53 + e1 - 53 - e1) with 0 by lia.
    split; reflexivity.
  - rewrite (digits_unique p2 54)
      by (change (54 - 1) with 53; rewrite Hc; split; [lia|reflexivity]).
    rewrite fexp_normal by lia.
    replace (54 + e1 - 53 - e1) with 1 by lia.
    destruct (shr_exact p2 e1 1 ltac:(lia)) as (Hm & Hs & _).
    split; [|exact Hs]. rewrite Hm, Hc. reflexivity.
Qed.

Lemma binary_round_aux_normal (M : positive) (e0 : Z) :
  let d := Zpos (digits2_pos M) in
  let n := d - 53 in
  let m1 := Zpos M / 2 ^ n in
  53 <= d -> -1074 <= e0 -> e0 + n + 1 <= 971 ->
  exists m3 e3,
    binary_round_aux prec emax false (Zpos M) e0 loc_Exact
    = S754_finite false m3 e3
    /\ Zpos (digits2_pos m3) = 53
    /\ ((e3 = e0 + n /\ m1 <= Zpos m3 <= m1 + 1)
        \/ (e3 = e0 + n + 1 /\ m1 = 2 ^ 53 - 1 /\ Zpos m3 = 2 ^ 52))
    /\ ((n = 0 \/ Z.odd (Zpos M / 2 ^ (n - 1)) = false) ->
        Zpos m3 = m1 /\ e3 = e0 + n).
Proof.
  intros d n m1 Hd He Ho.
  pose proof (normal_quotient M Hd) as Hq. fold d n m1 in Hq.
  unfold binary_round_aux.
  assert (S1 : shr_fexp prec emax (Zpos M) e0 loc_Exact
               = shr (Build_shr_record (Zpos M) false false) e0 n).
  { unfold shr_fexp. cbn [Zdigits2 shr_record_of_loc]. fold d.
    rewrite fexp_normal by lia. f_equal. unfold n. lia. }
  rewrite S1.
  destruct (shr_exact M e0 n ltac:(lia)) as (Hm & Hs & Hl & Hr).
  destruct (shr (Build_shr_record (Zpos M) false false) e0 n) as [r1 e1].
  cbn [fst snd] in Hm, Hs, Hl, Hr. fold m1 in Hm. subst e1.
  pose proof (round_nearest_even_bounds r1) as [Hb Hdown].
  cbv zeta in Hb, Hdown. rewrite Hm in Hb, Hdown. rewrite Hm.
  set (m2 := round_nearest_even m1 (loc_of_shr_record r1)) in *.
  assert (Hexact : n = 0 \/ Z.odd (Zpos M / 2 ^ (n - 1)) = false -> m2 = m1).
  { intros [Hz|Hodd].
    - unfold m2. rewrite (Hl Hz). reflexivity.
    - destruct (Z.eq_dec n 0) as [Hz|Hz].
      + unfold m2. rewrite (Hl Hz). reflexivity.
      + apply Hdown. rewrite Hr by lia. exact Hodd. }
  destruct m2 as [|p2|p2] eqn:E2; try lia.
  destruct (second_shift p2 (e0 + n) ltac:(lia) ltac:(lia) ltac:(lia))
    as [Hsame Hcarry].
  destruct (shr_fexp prec emax (Zpos p2) (e0 + n) loc_Exact) as [r2 e2].
  cbn [fst snd] in Hsame, Hcarry.
  destruct (Z.eq_dec (Zpos p2) (2 ^ 53)) as [Hc|Hc].
  - destruct (Hcarry Hc) as [Hm2 He2]. rewrite Hm2, He2.
    change (2 ^ 52) with (Zpos 4503599627370496).
    replace (e0 + n + 1 <=? emax - prec) with true
      by (symmetry; apply Z.leb_le; unfold emax, prec, Num.emax, Num.prec; lia).
    exists 4503599627370496%positive, (e0 + n + 1).
    split; [reflexivity|]. split; [reflexivity|].
    split; [right; split; [reflexivity|split; [lia|reflexivity]]|].
    intros Hx. apply Hexact in Hx. lia.
  - destruct (Hsame ltac:(lia)) as [Hm2 He2]. rewrite Hm2, He2.
    replace (e0 + n <=? emax - prec) with true
      by (symmetry; apply Z.leb_le; unfold emax, prec, Num.emax, Num.prec; lia).
    exists p2, (e0 + n).
    split; [reflexivity|].
    split; [apply digits_unique; change (53 - 1) with 52; lia|].
    split; [left; split; [reflexivity|lia]|].
    intros Hx. apply Hexact in Hx. split; [exact Hx|reflexivity].
Qed.

End Rounding.

Section Alignment.

Lemma iter_xO_value (m d : positive) :
  Zpos (Pos.iter xO m d) = Zpos m * 2 ^ Zpos d.
Proof.
  induction d as [|d IH] using Pos.peano_ind.
  - simpl. rewrite Pos2Z.inj_xO. change (2 ^ 1) with 2. lia.
  - rewrite Pos.iter_succ, Pos2Z.inj_xO, IH, Pos2Z.inj_succ.
    rewrite Z.pow_succ_r by lia. lia.
Qed.

Lemma shl_align_value (mx : positive) (ex ex' : Z) :
  ex' <= ex ->
  Zpos (fst (shl_align mx ex ex')) = Zpos mx * 2 ^ (ex - ex').
Proof.
  intros H. unfold shl_align.
  destruct (ex' - ex) as [|d|d] eqn:E; try lia; cbn [fst].
  - replace (ex - ex') with 0 by lia. change (2 ^ 0) with 1. lia.
  - rewrite iter_xO_value. f_equal. f_equal. lia.
Qed.

Lemma shl_align_noop (mx : positive) (ex ex' : Z) :
  ex <= ex' -> shl_align mx ex ex' = (mx, ex).
Proof.
  intros H. unfold shl_align.
  destruct (ex' - ex) as [|d|d] eqn:E; try lia; reflexivity.
Qed.

End Alignment.

Section Accumulation.

Let md : positive := 7205759403792794%positive.

Lemma timeDelta_value : timeDelta = S754_finite false md (-56).
Proof. reflexivity. Qed.

Lemma add_delta_finite (m : positive) (e : Z) :
  Zpos (digits2_pos m) = 53 -> -56 <= e <= -2 ->
  exists m' e',
    Num.add (S754_finite false m e) timeDelta = S754_finite false m' e'
    /\ Zpos (digits2_pos m') = 53 /\ -56 <= e' <= -2
    /\ (e < e' \/ (e = e' /\ Zpos m <= Zpos m')).
Proof.
  intros Hdm He.
  pose proof (digits_bounds m) as Bm. rewrite Hdm in Bm.
  change (2 ^ (53 - 1)) with 4503599627370496 in Bm.
  change (2 ^ 53) with 9007199254740992 in Bm.
  rewrite timeDelta_value. unfold Num.add, SFadd.
  rewrite (Z.min_r e (-56)) by lia.
  set (k := e + 56).
  assert (Ha : Zpos (fst (shl_align m e (-56))) = Zpos m * 2 ^ k)
    by (rewrite shl_align_value by lia; f_equal; f_equal; unfold k; lia).
  assert (Hb : Zpos (fst (shl_align md (-56) (-56))) = Zpos md)
    by (rewrite shl_align_noop by lia; reflexivity).
  cbn [cond_Zopp].
  set (a := fst (shl_align m e (-56))) in *.
  set (b := fst (shl_align md (-56) (-56))) in *.
  change (Zpos a + Zpos b) with (Zpos (a + b)).
  cbn [binary_normalize].
  assert (HM : Zpos (a + b) = Zpos m * 2 ^ k + Zpos md)
    by (rewrite Pos2Z.inj_add; lia).
  set (M := (a + b)%positive) in *. clearbody M a b.
  set (P := 2 ^ k) in *.
  assert (HP : 1 <= P) by (unfold P; pose proof (Z.pow_pos_nonneg 2 k); lia).
  pose proof (digits_bounds M) as BM.
  set (D := Zpos (digits2_pos M)) in *.
  assert (HD : 53 + k <= D <= 54 + k).
  { split.
    - assert (2 ^ (52 + k) < 2 ^ D).
      { rewrite Z.pow_add_r by lia. fold P.
        change (2 ^ 52) with 4503599627370496. nia. }
      apply Z.pow_lt_mono_r_iff in H; lia.
    - assert (2 ^ (D - 1) < 2 ^ (54 + k)).
      { rewrite (Z.pow_add_r 2 54 k) by lia. fold P.
        change (2 ^ 54) with 18014398509481984. unfold md in *. nia. }
      apply Z.pow_lt_mono_r_iff in H; lia. }
  unfold binary_round.
  rewrite shl_align_noop
    by (fold D; rewrite fexp_normal by (unfold k in *; lia); unfold k in *; lia).
  destruct (binary_round_aux_normal M (-56)) as (m3 & e3 & Hr & Hd3 & Hcase & Hexact);
    fold D; try (unfold k in *; lia).
  fold D in Hr, Hcase, Hexact.
  exists m3, e3. split; [exact Hr|]. split; [exact Hd3|].
  clear Hr BM.
  destruct (Z.eq_dec D (53 + k)) as [HDk|HDk].
  - (* the sum stays in the binade of [m * 2^e] *)
    replace (D - 53) with k in * by lia. fold P in Hcase, Hexact.
    assert (Hq : Zpos m <= Zpos M / P).
    { apply Z.div_le_lower_bound; [lia|]. rewrite HM. lia. }
    destruct (Z.eq_dec k 54) as [Hk|Hk].
    + (* at the top of the range the delta is below half an ulp *)
      assert (HP54 : P = 18014398509481984) by (unfold P; rewrite Hk; reflexivity).
      assert (Hodd : Z.odd (Zpos M / 2 ^ (k - 1)) = false).
      { rewrite Hk. change (2 ^ (54 - 1)) with 9007199254740992.
        replace (Zpos M / 9007199254740992) with (2 * Zpos m).
        - rewrite Z.odd_mul. reflexivity.
        - apply Z.div_unique with (r := Zpos md); unfold md; lia. }
      destruct (Hexact (or_intror Hodd)) as [H3 E3].
      unfold k in *. split; [lia|]. right. split; [lia|]. rewrite H3. exact Hq.
    + destruct Hcase as [[E3 B3]|[E3 _]]; unfold k in *.
      * split; [lia|]. right. split; lia.
      * split; [lia|]. left. lia.
  - (* the sum reaches the next binade *)
    replace (D - 53) with (k + 1) in * by lia.
    assert (HP2 : 2 ^ (k + 1) = 2 * P)
      by (unfold P; rewrite Z.pow_add_r by (unfold k; lia); change (2 ^ 1) with 2; lia).
    rewrite HP2 in Hcase.
    assert (Hk : k <> 54).
    { intros Hk. assert (HP54 : P = 18014398509481984) by (unfold P; rewrite Hk; reflexivity).
      assert (HDv : D = 108) by lia.
      pose proof (digits_bounds M) as [BMl _]. fold D in BMl. rewrite HDv in BMl.
      change (2 ^ (108 - 1)) with (9007199254740992 * 18014398509481984) in BMl.
      unfold md in *. lia. }
    destruct Hcase as [[E3 B3]|[E3 [Q3 _]]]; unfold k in *.
    + split; [lia|]. left. lia.
    + exfalso.
      assert (Hlow : (2 ^ 53 - 1) * (2 * P) <= Zpos M).
      { rewrite <- Q3. rewrite Z.mul_comm.
        apply Z.mul_div_le. lia. }
      change (2 ^ 53) with 9007199254740992 in Hlow.
      unfold md in *. nia.
Qed.


Lemma leb_zero_timeDelta : Num.leb Num.zero timeDelta = true.
Proof. reflexivity. Qed.

Lemma leb_zero_zero : Num.leb Num.zero Num.zero = true.
Proof. reflexivity. Qed.

Lemma leb_positive (m m' : positive) (e e' : Z) :
  e < e' \/ (e = e' /\ Zpos m <= Zpos m') ->
  Num.leb (S754_finite false m e) (S754_finite false m' e') = true.
Proof.
  unfold Num.leb, SFleb. cbn [SFcompare].
  intros [Hlt|[Heq Hle]].
  - replace (e ?= e') with Lt by (symmetry; apply Z.compare_lt_iff; exact Hlt).
    reflexivity.
  - subst e'. rewrite Z.compare_refl.
    change (Pos.compare_cont Eq m m') with (Pos.compare m m').
    destruct (Pos.compare_spec m m') as [ | |Hgt]; try reflexivity.
    apply Pos2Z.pos_lt_pos in Hgt. lia.
Qed.

(** Adding the time delta to an accumulated value gives an accumulated
    value that is not below it. *)
Lemma accumulated_add (x : number) :
  accumulated x ->
  accumulated (Num.add x timeDelta)
  /\ Num.leb x (Num.add x timeDelta) = true.
Proof.
  intros [->|(m & e & -> & Hd & He)].
  - rewrite timeDelta_value. cbn [Num.add SFadd]. split.
    + right. exists md, (-56). repeat split; try reflexivity; lia.
    + reflexivity.
  - destruct (add_delta_finite m e Hd He) as (m' & e' & -> & Hd' & He' & Hle).
    split.
    + right. exists m', e'. auto.
    + apply leb_positive. exact Hle.
Qed.

Lemma accumulated_leb_refl (x : number) :
  accumulated x -> Num.leb x x = true.
Proof.
  intros [->|(m & e & -> & _)]; [reflexivity|].
  apply leb_positive. right. split; [reflexivity|lia].
Qed.

Lemma acc_accumulated (k : nat) : accumulated (acc k).
Proof.
  induction k as [|k IH].
  - left. reflexivity.
  - change (acc (S k)) with (Num.add (acc k) timeDelta).
    apply accumulated_add. exact IH.
Qed.

Lemma acc_monotone (k : nat) : Num.leb (acc k) (acc (S k)) = true.
Proof.
  change (acc (S k)) with (Num.add (acc k) timeDelta).
  apply accumulated_add. apply acc_accumulated.
Qed.

End Accumulation.

(** ** The counters along a session *)

Section Counters.

Variable nf : number.

Lemma count_partition (dbs : list number) :
  List.length dbs
  = (countVerdict Good nf dbs + countVerdict TooLoud nf dbs
     + countVerdict TooQuiet nf dbs)%nat.
Proof.
  unfold countVerdict. induction dbs as [|db dbs IH]; [reflexivity|].
  simpl. destruct (classify db nf TARGET_DB_OFFSET SCREAM_THRESHOLD_DB);
    simpl; lia.
Qed.

Lemma accumulateAll_counters (dbs : list number) :
  forall (st : SessionStats) (n g l : nat),
    duration st = acc n ->
    validDuration st = acc g ->
    tooLoudDuration st = acc l ->
    treesPlanted st
    = Num.floor (Num.div (validDuration st) TREE_CYCLE_SECONDS) ->
    let st' := accumulateAll nf dbs st in
    duration st' = acc (n + List.length dbs)
    /\ validDuration st' = acc (g + countVerdict Good nf dbs)
    /\ tooLoudDuration st' = acc (l + countVerdict TooLoud nf dbs)
    /\ treesPlanted st'
       = Num.floor (Num.div (validDuration st') TREE_CYCLE_SECONDS).
Proof.
  unfold countVerdict, accumulateAll.
  induction dbs as [|db dbs IH]; intros st n g l Hd Hv Ht Hp.
  - simpl. rewrite !Nat.add_0_r. auto.
  - simpl fold_left. simpl filter. simpl List.length.
    destruct (classify db nf TARGET_DB_OFFSET SCREAM_THRESHOLD_DB);
      simpl Verdict_eqb; cbv iota; simpl List.length.
    + (* too quiet *)
      rewrite <- Nat.add_succ_comm.
      apply IH; simpl; try assumption. rewrite Hd. reflexivity.
    + (* good *)
      rewrite <- !Nat.add_succ_comm.
      apply IH; simpl; try assumption.
      * rewrite Hd. reflexivity.
      * rewrite Hv. reflexivity.
      * reflexivity.
    + (* too loud *)
      rewrite <- !Nat.add_succ_comm.
      apply IH; simpl; try assumption.
      * rewrite Hd. reflexivity.
      * rewrite Ht. reflexivity.
Qed.

End Counters.

Lemma readingTicks_reading (dbs : list number) :
  forall (now : Z) (s : App),
    appState s = READING ->
    appState (readingTicks dbs now s) = READING
    /\ noiseFloor (readingTicks dbs now s) = noiseFloor s
    /\ stats (readingTicks dbs now s)
       = accumulateAll (noiseFloor s) dbs (stats s).
Proof.
  induction dbs as [|db dbs IH]; intros now s Hr; [auto|].
  simpl readingTicks. unfold tick. rewrite (tick_reading _ _ _ _ Hr).
  set (s1 := setStats _ _).
  assert (Hr1 : appState s1 = READING) by exact Hr.
  destruct (IH (now + 100) s1 Hr1) as (Ha & Hn & Hs).
  rewrite Ha, Hn, Hs. repeat split.
Qed.

Lemma zeroStats_invariant : statsInvariant zeroStats.
Proof.
  exists 0%nat, 0%nat, 0%nat. repeat split; lia.
Qed.

Lemma accumulate_invariant (v : Verdict) (st : SessionStats) :
  statsInvariant st ->
  statsInvariant (accumulate timeDelta TREE_CYCLE_SECONDS v st).
Proof.
  intros (n & g & l & Hle & Hd & Hv & Ht & Hp).
  destruct v; simpl.
  - exists (S n), g, l. simpl. rewrite Hd. repeat split; auto; lia.
  - exists (S n), (S g), l. simpl. rewrite Hd, Hv. repeat split; auto; lia.
  - exists (S n), g, (S l). simpl. rewrite Hd, Ht. repeat split; auto; lia.
Qed.

Lemma accumulate_monotone (v : Verdict) (st : SessionStats) :
  statsInvariant st ->
  let st' := accumulate timeDelta TREE_CYCLE_SECONDS v st in
  Num.leb (duration st) (duration st') = true
  /\ Num.leb (validDuration st) (validDuration st') = true
  /\ Num.leb (tooLoudDuration st) (tooLoudDuration st') = true.
Proof.
  intros (n & g & l & Hle & Hd & Hv & Ht & Hp).
  pose proof (acc_monotone n) as Mn.
  pose proof (acc_monotone g) as Mg.
  pose proof (acc_monotone l) as Ml.
  pose proof (accumulated_leb_refl _ (acc_accumulated g)) as Rg.
  pose proof (accumulated_leb_refl _ (acc_accumulated l)) as Rl.
  destruct v; simpl; rewrite Hd, Hv, Ht; auto.
Qed.

Lemma invariant_leb_refl (st : SessionStats) :
  statsInvariant st ->
  Num.leb (duration st) (duration st) = true
  /\ Num.leb (validDuration st) (validDuration st) = true
  /\ Num.leb (tooLoudDuration st) (tooLoudDuration st) = true.
Proof.
  intros (n & g & l & Hle & Hd & Hv & Ht & Hp).
  rewrite Hd, Hv, Ht.
  repeat split; apply accumulated_leb_refl, acc_accumulated.
Qed.

Lemma step_invariant (alpha : number) (e : Event) (s : App) :
  statsInvariant (stats s) -> statsInvariant (stats (step_with alpha e s)).
Proof.
  intros H.
  destruct (step_stats alpha e s) as [E|[E|(db & now & _ & _ & E)]];
    rewrite E.
  - exact H.
  - apply zeroStats_invariant.
  - apply accumulate_invariant. exact H.
Qed.

Lemma run_invariant (alpha : number) (es : list Event) (s : App) :
  statsInvariant (stats s) -> statsInvariant (stats (run_with alpha es s)).
Proof.
  revert s. induction es as [|e es IH]; intros s H; [exact H|].
  unfold run_with in *. simpl. apply IH. apply step_invariant. exact H.
Qed.

Lemma step_monotone (alpha : number) (e : Event) (s : App) :
  statsInvariant (stats s) ->
  stats (step_with alpha e s) = zeroStats
  \/ (Num.leb (duration (stats s)) (duration (stats (step_with alpha e s)))
      = true
      /\ Num.leb (validDuration (stats s))
           (validDuration (stats (step_with alpha e s))) = true
      /\ Num.leb (tooLoudDuration (stats s))
           (tooLoudDuration (stats (step_with alpha e s))) = true).
Proof.
  intros H.
  destruct (step_stats alpha e s) as [E|[E|(db & now & _ & _ & E)]];
    rewrite E.
  - right. apply invariant_leb_refl. exact H.
  - left. reflexivity.
  - right. apply accumulate_monotone. exact H.
Qed.

(** C1, as the program has it.  In every state reached from the initial
    one, each of the three counters is the binary64 accumulation of the
    time delta over a number of ticks, the ticks counted as valid and as
    too loud being among those counted in the duration, and treesPlanted
    is floor (validDuration / treeCycleSeconds) of the stored valid
    duration.  An event either zeroes the statistics (reset, continue) or
    lowers none of the three counters.  In a Reading session begun with
    zeroed statistics the duration has accumulated over all the ticks,
    the valid duration over the Good ticks and the too-loud duration over
    the TooLoud ticks, the remaining ticks being the TooQuiet ones: the
    identity between duration, valid, too-loud and too-quiet time holds
    for the tick counts, and for the seconds up to the rounding of the
    accumulations. *)
Theorem counters_invariant (es : list Event) (e : Event) :
  statsInvariant (stats (run es initialApp))
  /\ (stats (step e (run es initialApp)) = zeroStats
      \/ (Num.leb (duration (stats (run es initialApp)))
            (duration (stats (step e (run es initialApp)))) = true
          /\ Num.leb (validDuration (stats (run es initialApp)))
               (validDuration (stats (step e (run es initialApp)))) = true
          /\ Num.leb (tooLoudDuration (stats (run es initialApp)))
               (tooLoudDuration (stats (step e (run es initialApp)))) = true))
  /\ (forall (dbs : list number) (now : Z) (s : App),
        appState s = READING ->
        stats s = zeroStats ->
        let st := stats (readingTicks dbs now s) in
        let g := countVerdict Good (noiseFloor s) dbs in
        let l := countVerdict TooLoud (noiseFloor s) dbs in
        let q := countVerdict TooQuiet (noiseFloor s) dbs in
        List.length dbs = (g + l + q)%nat
        /\ duration st = acc (g + l + q)
        /\ validDuration st = acc g
        /\ tooLoudDuration st = acc l
        /\ treesPlanted st
           = Num.floor (Num.div (validDuration st) TREE_CYCLE_SECONDS)
        /\ forall (db : number) (now' : Z),
             let st' := stats (tick db now' (readingTicks dbs now s)) in
             Num.leb (duration st) (duration st') = true
             /\ Num.leb (validDuration st) (validDuration st') = true
             /\ Num.leb (tooLoudDuration st) (tooLoudDuration st') = true).
Proof.
  assert (I : statsInvariant (stats (run es initialApp)))
    by (apply run_invariant, zeroStats_invariant).
  split; [exact I|]. split; [apply step_monotone; exact I|].
  intros dbs now s Hr Hz st g l q.
  destruct (readingTicks_reading dbs now s Hr) as (Ha & Hn & Hs).
  destruct (accumulateAll_counters (noiseFloor s) dbs (stats s) 0 0 0)
    as (Hd & Hv & Ht & Hp); try (rewrite Hz; reflexivity).
  rewrite <- Hs in Hd, Hv, Ht, Hp. fold st in Hd, Hv, Ht, Hp.
  pose proof (count_partition (noiseFloor s) dbs) as Hc. fold g l q in Hc.
  split; [exact Hc|]. split; [rewrite Hd, Hc; reflexivity|].
  split; [exact Hv|]. split; [exact Ht|]. split; [exact Hp|].
  intros db now' st'. unfold st', tick.
  rewrite (tick_reading _ _ _ _ Ha).
  cbn [stats setStats setCurrentDb].
  apply accumulate_monotone.
  exists (g + l + q)%nat, g, l.
  fold st. rewrite Hd, Hc. repeat split; auto. lia.
Qed.

(** Six ticks of a session at the default noise floor: one Good, two
    TooLoud, three TooQuiet. *)
Lemma counters_invariant_witness :
  let st :=
    stats
      (readingTicks
         [goodSample; loudSample; loudSample;
          quietSample; quietSample; quietSample]
         100 (handleStartReading true initialApp)) in
  duration st = acc 6 /\ validDuration st = acc 1 /\ tooLoudDuration st = acc 2.
Proof.
  destruct (counters_invariant [] Stop) as (_ & _ & H).
  destruct (H [goodSample; loudSample; loudSample;
               quietSample; quietSample; quietSample]
              100 (handleStartReading true initialApp) eq_refl eq_refl)
    as (_ & Hd & Hv & Ht & _).
  split; [exact Hd|]. split; [exact Hv|exact Ht].
Defined.

(** The identity of C1 read on the stored seconds fails after six ticks,
    one Good, two TooLoud and three TooQuiet: duration is
    0.59999999999999998, valid 0.1 and too loud 0.2; the derived
    too-quiet time is 0.29999999999999999, the time accumulated over the
    three too-quiet ticks 0.30000000000000004; the sum of valid, too loud
    and too-quiet time, in the order of that identity, in the order of the
    data model, or with the accumulated too-quiet time, is
    0.60000000000000009. *)
Lemma duration_identity_counterexample :
  let st :=
    stats
      (readingTicks
         [goodSample; loudSample; loudSample;
          quietSample; quietSample; quietSample]
         100 (handleStartReading true initialApp)) in
  Num.eqb (duration st)
    (Num.add (Num.add (validDuration st) (tooLoudDuration st))
       (tooQuietSeconds st)) = false
  /\ duration st
     <> Num.add (Num.add (validDuration st) (tooLoudDuration st))
          (tooQuietSeconds st)
  /\ Num.eqb
       (Num.add (Num.add (validDuration st) (tooQuietSeconds st))
          (tooLoudDuration st))
       (duration st) = false
  /\ Num.eqb (duration st)
       (Num.add (Num.add (validDuration st) (tooLoudDuration st)) (acc 3))
     = false
  /\ Num.eqb (tooQuietSeconds st) (acc 3) = false.
Proof.
  vm_compute. repeat split; discriminate.
Qed.

(** After three Good and three TooLoud ticks, none of them too quiet, the
    valid and the too-loud durations add up to more than the duration,
    and the derived too-quiet time is negative (-1.1e-16). *)
Example tooQuiet_negative_example :
  let st :=
    stats
      (readingTicks
         [goodSample; goodSample; goodSample;
          loudSample; loudSample; loudSample]
         100 (handleStartReading true initialApp)) in
  countVerdict TooQuiet DEFAULT_NOISE_FLOOR_DB
    [goodSample; goodSample; goodSample; loudSample; loudSample; loudSample]
  = 0%nat
  /\ Num.ltb (duration st)
       (Num.add (validDuration st) (tooLoudDuration st)) = true
  /\ Num.ltb (tooQuietSeconds st) Num.zero = true.
Proof.
  vm_compute. repeat split.
Qed.

(** ** Ten seconds of good volume *)

(** C4, evaluated.  With the tick period of 100 ms and the tree cycle of
    10 s, a Reading session begun with zeroed statistics and fed 100
    samples that are all Good holds a valid duration of
    9.9999999999999805 seconds, below 10, no tree, and a growth of
    99.999999999999801 percent; the tree is counted on the next Good
    tick. *)
Theorem hundred_good_ticks (dbs : list number) (now : Z) (s : App) :
  appState s = READING ->
  stats s = zeroStats ->
  List.length dbs = 100%nat ->
  countVerdict Good (noiseFloor s) dbs = 100%nat ->
  let st := stats (readingTicks dbs now s) in
  TREE_CYCLE_SECONDS = Num.of_Z 10
  /\ validDuration st = S754_finite false 5629499534213109 (-49)
  /\ Num.ltb (validDuration st) (Num.of_Z 10) = true
  /\ treesPlanted st = Num.zero
  /\ growthPercentage st = S754_finite false 7036874417766386 (-46)
  /\ Num.ltb (Num.of_Z 99) (growthPercentage st) = true
  /\ (forall db now',
        verdictOf (readingTicks dbs now s) db = Good ->
        treesPlanted (stats (tick db now' (readingTicks dbs now s)))
        = Num.of_Z 1).
Proof.
  intros Hr Hz Hl Hg st.
  destruct (readingTicks_reading dbs now s Hr) as (Ha & Hn & Hs).
  destruct (accumulateAll_counters (noiseFloor s) dbs (stats s) 0 0 0)
    as (_ & Hv & _ & Hp); try (rewrite Hz; reflexivity).
  rewrite <- Hs in Hv, Hp. fold st in Hv, Hp. rewrite Hg in Hv.
  assert (V : validDuration st = S754_finite false 5629499534213109 (-49))
    by (rewrite Hv; vm_compute; reflexivity).
  split; [reflexivity|]. split; [exact V|].
  split; [rewrite V; reflexivity|].
  split; [rewrite Hp, V; vm_compute; reflexivity|].
  unfold growthPercentage, currentTreeProgressSeconds. rewrite V.
  split; [vm_compute; reflexivity|]. split; [vm_compute; reflexivity|].
  intros db now' Hgood. unfold tick. rewrite (tick_reading _ _ _ _ Ha).
  rewrite Hgood. cbn [stats setStats setCurrentDb accumulate treesPlanted].
  fold st. rewrite V. vm_compute. reflexivity.
Qed.

Lemma hundred_good_ticks_witness :
  treesPlanted
    (stats
       (readingTicks (repeat goodSample 100) 100
          (handleStartReading true initialApp)))
  = Num.zero.
Proof.
  assert (H1 : List.length (repeat goodSample 100) = 100%nat)
    by (vm_compute; reflexivity).
  assert (H2 : countVerdict Good
                 (noiseFloor (handleStartReading true initialApp))
                 (repeat goodSample 100) = 100%nat)
    by (vm_compute; reflexivity).
  destruct (hundred_good_ticks (repeat goodSample 100) 100
              (handleStartReading true initialApp) eq_refl eq_refl H1 H2)
    as (_ & _ & _ & H & _).
  exact H.
Defined.

(** * Further properties of the engine *)

(** ** The session state machine *)

(** The session state after an event. *)
Lemma step_appState (alpha : number) (e : Event) (s : App) :
  appState (step_with alpha e s)
  = match e with
    | Tick _ now =>
        match appState s with
        | CALIBRATING =>
            if CALIBRATION_DURATION_MS <? now - calibrationStartTimeRef s
            then IDLE else CALIBRATING
        | a => a
        end
    | StartCalibration granted _ =>
        if audioContext (audio s) || granted then CALIBRATING else appState s
    | StartReading granted =>
        if audioContext (audio s) || granted then READING else appState s
    | Stop => COMPLETED
    | Reset | Continue => IDLE
    end.
Proof.
  destruct e as [db now|granted now|granted| | |]; simpl; try reflexivity.
  - unfold timerArmed, tick_with.
    destruct (appState s) eqn:Hs; try exact Hs.
    + destruct (CALIBRATION_DURATION_MS <? now - calibrationStartTimeRef s);
        [reflexivity|exact Hs].
    + destruct (Num.gtb db SCREAM_THRESHOLD_DB); [exact Hs|].
      destruct (Num.geb db (targetDb s)); exact Hs.
  - unfold handleStartCalibration, audio_start; simpl.
    destruct (audioContext (audio s)); [|destruct granted]; reflexivity.
  - unfold handleStartReading, audio_start; simpl.
    destruct (audioContext (audio s)); [|destruct granted]; reflexivity.
Qed.

(** X1. No action and no tick ever moves the session into Paused: a state
    that is Paused after an event was Paused before it.  Hence no run
    from the initial state is ever Paused, with or without the page's
    controls in between. *)
Theorem paused_is_never_entered (e : Event) (s : App) :
  (appState (step e s) = PAUSED -> appState s = PAUSED)
  /\ (forall es : list Event, appState (run es initialApp) <> PAUSED)
  /\ (forall es : list Event, appState (pageRun es initialApp) <> PAUSED).
Proof.
  assert (St : forall e' s', appState (step e' s') = PAUSED ->
                             appState s' = PAUSED).
  { intros e' s'. unfold step. rewrite step_appState.
    destruct e' as [db now|granted now|granted| | |]; try discriminate.
    - destruct (appState s'); try discriminate; auto.
      destruct (CALIBRATION_DURATION_MS <? now - calibrationStartTimeRef s');
        discriminate.
    - destruct (audioContext (audio s') || granted); [discriminate|auto].
    - destruct (audioContext (audio s') || granted); [discriminate|auto]. }
  split; [apply St|]. split.
  - intros es. unfold run, run_with.
    assert (G : forall s', appState s' <> PAUSED ->
                appState (fold_left (fun acc e' => step_with EMA_ALPHA e' acc)
                            es s') <> PAUSED).
    { induction es as [|e' es IH]; intros s' Hs'; [exact Hs'|].
      simpl. apply IH. intros H. apply Hs'. apply (St e' s'). exact H. }
    apply G. discriminate.
  - intros es. unfold pageRun.
    assert (G : forall s', appState s' <> PAUSED ->
                appState (fold_left (fun acc e' => pageStep e' acc) es s')
                <> PAUSED).
    { induction es as [|e' es IH]; intros s' Hs'; [exact Hs'|].
      simpl. apply IH. unfold pageStep.
      destruct (available e' s'); [|exact Hs'].
      intros H. apply Hs'. apply (St e' s'). exact H. }
    apply G. discriminate.
Qed.

Lemma paused_is_never_entered_witness :
  appState (run [StartReading true; Tick goodSample 100; Reset] initialApp)
  <> PAUSED.
Proof.
  apply (paused_is_never_entered Stop initialApp).
Defined.











(** ** The range of the noise floor *)

Lemma default_noiseFloor_range :
  Num.leb (Num.of_Z (-80)) DEFAULT_NOISE_FLOOR_DB = true
  /\ Num.leb DEFAULT_NOISE_FLOOR_DB (Num.of_Z (-30)) = true.
Proof. split; reflexivity. Qed.

(** X5. As long as the samples read on the ticks are numbers, the noise
    floor stays within [-80, -30] in every state reached from the
    initial one: it starts at -60 and is only ever replaced by a clamped
    sample. *)
Theorem noiseFloor_stays_in_range (es : list Event) :
  forallb isNumericTick es = true ->
  Num.leb (Num.of_Z (-80)) (noiseFloor (run es initialApp)) = true
  /\ Num.leb (noiseFloor (run es initialApp)) (Num.of_Z (-30)) = true.
Proof.
  unfold run, run_with.
  assert (G : forall s,
             Num.leb (Num.of_Z (-80)) (noiseFloor s) = true
             /\ Num.leb (noiseFloor s) (Num.of_Z (-30)) = true ->
             forallb isNumericTick es = true ->
             let r := fold_left (fun acc e => step_with EMA_ALPHA e acc) es s in
             Num.leb (Num.of_Z (-80)) (noiseFloor r) = true
             /\ Num.leb (noiseFloor r) (Num.of_Z (-30)) = true).
  { induction es as [|e es IH]; intros s Hs Hes; [exact Hs|].
    simpl in Hes. apply andb_prop in Hes. destruct Hes as [He Hes].
    simpl. apply IH; [|exact Hes].
    destruct (step_noiseFloor EMA_ALPHA e s)
      as [E|(db & now & -> & _ & _ & _ & E)]; rewrite E; [exact Hs|].
    simpl in He. apply negb_true_iff in He.
    rewrite of_Z_minus80, of_Z_minus30. apply clamp_range; [lia|exact He]. }
  intros Hes. apply G; [apply default_noiseFloor_range|exact Hes].
Qed.

Lemma noiseFloor_stays_in_range_witness :
  Num.leb (Num.of_Z (-80))
    (noiseFloor (run (calibrationStream (Num.of_Z (-95)) 0 31) initialApp))
  = true.
Proof.
  apply (noiseFloor_stays_in_range (calibrationStream (Num.of_Z (-95)) 0 31)).
  vm_compute. reflexivity.
Defined.

(** ** Operations that do not produce NaN *)

Section NotNaN.

Lemma shr_nonneg (r : shr_record) (e n : Z) :
  0 <= shr_m r -> 0 <= shr_m (fst (shr r e n)).
Proof.
  intros Hm. destruct n as [|p|p]; cbn [shr fst]; try exact Hm.
  rewrite iter_pos_nat, iter_shr_m by exact Hm.
  apply Z.div_pos; [exact Hm | apply Z.pow_pos_nonneg; lia].
Qed.

Lemma shr_record_of_loc_m (m : Z) (l : location) :
  shr_m (shr_record_of_loc m l) = m.
Proof. destruct l as [|[]]; reflexivity. Qed.

Lemma shr_fexp_nonneg (m e : Z) (l : location) :
  0 <= m -> 0 <= shr_m (fst (shr_fexp Num.prec Num.emax m e l)).
Proof.
  intros Hm. unfold shr_fexp. apply shr_nonneg.
  rewrite shr_record_of_loc_m. exact Hm.
Qed.

Lemma binary_round_aux_number (s : bool) (mx ex : Z) (lx : location) :
  0 <= mx ->
  Num.is_nan (binary_round_aux Num.prec Num.emax s mx ex lx) = false.
Proof.
  intros Hm. unfold binary_round_aux.
  pose proof (shr_fexp_nonneg mx ex lx Hm) as H1.
  destruct (shr_fexp Num.prec Num.emax mx ex lx) as [r1 e1]. cbn [fst] in H1.
  pose proof (round_nearest_even_bounds r1) as [[Hb _] _]. cbv zeta in Hb.
  set (m2 := round_nearest_even (shr_m r1) (loc_of_shr_record r1)) in *.
  pose proof (shr_fexp_nonneg m2 e1 loc_Exact ltac:(lia)) as H2.
  destruct (shr_fexp Num.prec Num.emax m2 e1 loc_Exact) as [r2 e2].
  cbn [fst] in H2.
  destruct (shr_m r2) as [|p|p]; try lia; [reflexivity|].
  destruct (e2 <=? Num.emax - Num.prec); reflexivity.
Qed.

Lemma binary_normalize_number (z e : Z) (s : bool) :
  Num.is_nan (binary_normalize Num.prec Num.emax z e s) = false.
Proof.
  destruct z as [|p|p]; cbn [binary_normalize]; [reflexivity| |];
    unfold binary_round;
    destruct (shl_align _ _ _) as [mz ez];
    apply binary_round_aux_number; lia.
Qed.

Lemma sub_number (a b : number) :
  Num.is_nan a = false -> is_finite b = true ->
  Num.is_nan (Num.sub a b) = false.
Proof.
  intros Ha Hb. destruct b as [| | |sb mb eb]; try discriminate Hb.
  destruct a as [sa|sa| |sa ma ea]; try discriminate Ha; try reflexivity.
  unfold Num.sub, SFsub. apply binary_normalize_number.
Qed.

Lemma div_number (a b : number) :
  Num.is_nan a = false -> is_finite b = true ->
  Num.is_nan (Num.div a b) = false.
Proof.
  intros Ha Hb. destruct b as [| | |sb mb eb]; try discriminate Hb.
  destruct a as [sa|sa| |sa ma ea]; try discriminate Ha; try reflexivity.
  unfold Num.div, SFdiv.
  destruct (SFdiv_core_binary Num.prec Num.emax (Zpos ma) ea (Zpos mb) eb)
    as [[mz ez] lz] eqn:E.
  apply binary_round_aux_number.
  unfold SFdiv_core_binary in E.
  set (m' := match _ - _ - _ with Zpos _ => _ | Z0 => _ | Zneg _ => _ end) in E.
  assert (Hm' : 0 <= m').
  { unfold m'. destruct (_ - _ - _) as [|p|p]; try lia.
    apply Z.shiftl_nonneg. lia. }
  pose proof (Z_div_mod m' (Zpos mb) ltac:(lia)) as Hd.
  destruct (Z.div_eucl m' (Zpos mb)) as [q r].
  inversion E; subst. nia.
Qed.

Lemma mul_number (a b : number) :
  Num.is_nan a = false -> is_finite b = true ->
  Num.is_nan (Num.mul a b) = false.
Proof.
  intros Ha Hb. destruct b as [| | |sb mb eb]; try discriminate Hb.
  destruct a as [sa|sa| |sa ma ea]; try discriminate Ha; try reflexivity.
  unfold Num.mul, SFmul. apply binary_round_aux_number. lia.
Qed.

Lemma Math_round_number (a : number) :
  Num.is_nan a = false -> Num.is_nan (Math_round a) = false.
Proof.
  intros Ha. destruct a as [sa|sa| |sa ma ea]; try discriminate Ha;
    try reflexivity.
  unfold Math_round. destruct (0 <=? ea); [reflexivity|].
  apply binary_normalize_number.
Qed.

End NotNaN.

(** ** The range of [Math.max] and [Math.min] against a bound *)

Lemma max_zero_range (x : number) :
  Num.is_nan x = false ->
  Num.leb Num.zero (Num.max Num.zero x) = true.
Proof.
  intros Hx. pose proof (SFcompare_numbers Num.zero x eq_refl Hx) as C.
  unfold Num.max. change (Num.is_neg_zero Num.zero) with false.
  destruct (SFcompare Num.zero x) as [[ | | ]|] eqn:E; try congruence.
  - reflexivity.
  - unfold Num.leb, SFleb. rewrite E. reflexivity.
  - reflexivity.
Qed.

Lemma min_bound_range (hi x : number) :
  is_finite hi = true ->
  Num.leb Num.zero hi = true ->
  Num.leb Num.zero x = true ->
  Num.leb Num.zero (Num.min hi x) = true
  /\ Num.leb (Num.min hi x) hi = true.
Proof.
  intros Hf H0 Hx.
  assert (Rh : Num.leb hi hi = true).
  { destruct hi as [| | |sh mh eh]; try discriminate Hf.
    apply leb_refl_finite. }
  assert (Hn : Num.is_neg_zero hi = false)
    by (destruct hi; try discriminate Hf; reflexivity).
  unfold Num.min. rewrite Hn.
  destruct (SFcompare hi x) as [[ | | ]|] eqn:E.
  - split; [exact Hx|]. unfold Num.leb, SFleb.
    rewrite (SFcompare_antisym hi x), E. reflexivity.
  - auto.
  - split; [exact Hx|]. unfold Num.leb, SFleb.
    rewrite (SFcompare_antisym hi x), E. reflexivity.
  - apply SFcompare_None in E. destruct E as [E|E].
    + destruct hi; discriminate.
    + destruct x; try discriminate E. discriminate Hx.
Qed.

(** ** The volume meter *)

Lemma normalize_inner_number (db : number) :
  Num.is_nan db = false ->
  Num.is_nan
    (Num.mul (Num.div (Num.sub db minRange) (Num.sub maxRange minRange))
       (Num.of_Z 100)) = false.
Proof.
  intros Hd. apply mul_number; [|reflexivity].
  apply div_number; [|reflexivity].
  apply sub_number; [exact Hd|reflexivity].
Qed.


(** ** Signs through the arithmetic *)

Lemma binary_round_aux_sign (s : bool) (mx ex : Z) (lx : location) :
  0 <= mx ->
  binary_round_aux Num.prec Num.emax s mx ex lx = S754_zero s
  \/ (exists m e,
        binary_round_aux Num.prec Num.emax s mx ex lx = S754_finite s m e)
  \/ binary_round_aux Num.prec Num.emax s mx ex lx = S754_infinity s.
Proof.
  intros Hm. unfold binary_round_aux.
  pose proof (shr_fexp_nonneg mx ex lx Hm) as H1.
  destruct (shr_fexp Num.prec Num.emax mx ex lx) as [r1 e1]. cbn [fst] in H1.
  pose proof (round_nearest_even_bounds r1) as [[Hb _] _]. cbv zeta in Hb.
  set (m2 := round_nearest_even (shr_m r1) (loc_of_shr_record r1)) in *.
  pose proof (shr_fexp_nonneg m2 e1 loc_Exact ltac:(lia)) as H2.
  destruct (shr_fexp Num.prec Num.emax m2 e1 loc_Exact) as [r2 e2].
  cbn [fst] in H2.
  destruct (shr_m r2) as [|p|p]; try lia; [left; reflexivity|].
  destruct (e2 <=? Num.emax - Num.prec); [right; left; eauto|right; right; reflexivity].
Qed.

Lemma negative_round_nonPositive (mx ex : Z) (lx : location) :
  0 <= mx -> nonPositive (binary_round_aux Num.prec Num.emax true mx ex lx).
Proof.
  intros Hm.
  destruct (binary_round_aux_sign true mx ex lx Hm) as [E|[(m & e & E)|E]];
    rewrite E; unfold nonPositive; eauto.
Qed.

Lemma div_nonPositive (x c : number) (mc : positive) (ec : Z) :
  c = S754_finite false mc ec ->
  nonPositive x -> nonPositive (Num.div x c).
Proof.
  intros -> [[s ->]|[(m & e & ->)| ->]].
  - left. eexists. reflexivity.
  - unfold Num.div, SFdiv.
    destruct (SFdiv_core_binary Num.prec Num.emax (Zpos m) e (Zpos mc) ec)
      as [[mz ez] lz] eqn:E.
    apply negative_round_nonPositive.
    unfold SFdiv_core_binary in E.
    set (m' := match _ - _ - _ with Zpos _ => _ | Z0 => _ | Zneg _ => _ end) in E.
    assert (Hm' : 0 <= m').
    { unfold m'. destruct (_ - _ - _) as [|p|p]; try lia.
      apply Z.shiftl_nonneg. lia. }
    pose proof (Z_div_mod m' (Zpos mc) ltac:(lia)) as Hd.
    destruct (Z.div_eucl m' (Zpos mc)) as [q r].
    inversion E; subst. nia.
  - right; right. reflexivity.
Qed.

Lemma mul_nonPositive (x c : number) (mc : positive) (ec : Z) :
  c = S754_finite false mc ec ->
  nonPositive x -> nonPositive (Num.mul x c).
Proof.
  intros -> [[s ->]|[(m & e & ->)| ->]].
  - left. eexists. reflexivity.
  - unfold Num.mul, SFmul. apply negative_round_nonPositive. lia.
  - right; right. reflexivity.
Qed.

Lemma max_zero_nonPositive (x : number) :
  nonPositive x -> Num.max Num.zero x = Num.zero.
Proof.
  intros [[s ->]|[(m & e & ->)| ->]]; reflexivity.
Qed.

Lemma canonical_digits (m : positive) (e : Z) :
  canonical_mantissa Num.prec Num.emax m e = true ->
  Zpos (digits2_pos m) = 53 \/ e = -1074.
Proof.
  unfold canonical_mantissa, fexp, emin, Num.prec, Num.emax.
  intros H. apply Z.eqb_eq in H. lia.
Qed.

Lemma compare_cont_Eq_spec (m n : positive) (c : comparison) :
  Pos.compare_cont Eq m n = c ->
  match c with
  | Eq => Zpos m = Zpos n
  | Lt => Zpos m < Zpos n
  | Gt => Zpos n < Zpos m
  end.
Proof.
  change (Pos.compare_cont Eq m n) with (Pos.compare m n).
  intros <-. destruct (Pos.compare_spec m n) as [E|E|E].
  - subst. reflexivity.
  - apply Pos2Z.pos_lt_pos. exact E.
  - apply Pos2Z.pos_lt_pos. exact E.
Qed.

Lemma sub_minRange_nonPositive (db : number) :
  Num.is_nan db = false ->
  valid_binary Num.prec Num.emax db = true ->
  Num.leb db minRange = true ->
  nonPositive (Num.sub db minRange).
Proof.
  intros Hn Hv Hle.
  assert (Em : minRange = S754_finite true 4925812092436480 (-46))
    by reflexivity.
  rewrite Em in *.
  destruct db as [s|[]| |[] m e]; try discriminate Hn; try discriminate Hle.
  - right; right. reflexivity.
  - unfold Num.leb, SFleb in Hle. cbn [SFcompare] in Hle.
    cbn [valid_binary] in Hv. unfold bounded in Hv.
    apply andb_prop in Hv. destruct Hv as [Hc _].
    apply canonical_digits in Hc.
    unfold Num.sub, SFsub. cbv zeta. cbn [cond_Zopp].
    set (ez := Z.min e (-46)).
    pose proof (shl_align_value m e ez ltac:(unfold ez; lia)) as Ha.
    pose proof (shl_align_value 4925812092436480 (-46) ez ltac:(unfold ez; lia))
      as Hb.
    set (a := fst (shl_align m e ez)) in *.
    set (b := fst (shl_align 4925812092436480 (-46) ez)) in *.
    assert (Hz : - Zpos a - - Zpos b <= 0).
    { rewrite Ha, Hb.
      pose proof (digits_bounds m) as Bm.
      destruct (Z.compare_spec e (-46)) as [Heq|Hlt|Hgt].
      - subst e. unfold ez. rewrite Z.min_id.
        replace (-46 - -46) with 0 by lia. change (2 ^ 0) with 1.
        destruct (Pos.compare_cont Eq m 4925812092436480) eqn:C;
          try discriminate Hle;
          apply compare_cont_Eq_spec in C; lia.
      - discriminate Hle.
      - unfold ez. rewrite Z.min_r by lia.
        replace (-46 - -46) with 0 by lia. change (2 ^ 0) with 1.
        destruct Hc as [Hc|Hc]; [|lia].
        rewrite Hc in Bm. change (2 ^ (53 - 1)) with 4503599627370496 in Bm.
        assert (2 <= 2 ^ (e - -46)).
        { change 2 with (2 ^ 1) at 1. apply Z.pow_le_mono_r; lia. }
        nia. }
    destruct (- Zpos a - - Zpos b) as [|p|p] eqn:Ez; try lia.
    + left. eexists. reflexivity.
    + cbn [binary_normalize]. unfold binary_round.
      destruct (shl_align p ez _) as [mz ez'].
      apply negative_round_nonPositive. lia.
Qed.

Lemma normalize_below_range (db : number) :
  Num.is_nan db = false ->
  valid_binary Num.prec Num.emax db = true ->
  Num.leb db minRange = true ->
  normalize db = Num.zero.
Proof.
  intros Hn Hv Hle. unfold normalize.
  rewrite max_zero_nonPositive; [reflexivity|].
  eapply mul_nonPositive; [reflexivity|].
  eapply div_nonPositive; [reflexivity|].
  apply sub_minRange_nonPositive; assumption.
Qed.

(** X6. The meter maps every level that is a number to a percentage
    between 0 and 100, so the bar and the markers never leave the track.
    A binary64 level at or below -70 dB, the sensor's floor of -100 dB
    among them, gives exactly 0, and -10 dB gives 100.  A level that is
    not a number gives a percentage that is not a number. *)
Theorem normalize_within_track (db : number) :
  (Num.is_nan db = false ->
   Num.leb Num.zero (normalize db) = true
   /\ Num.leb (normalize db) (Num.of_Z 100) = true)
  /\ (Num.is_nan db = false ->
      valid_binary Num.prec Num.emax db = true ->
      Num.leb db minRange = true ->
      normalize db = Num.zero)
  /\ (Num.is_nan db = true -> Num.is_nan (normalize db) = true)
  /\ normalize MIN_DECIBELS = Num.zero
  /\ normalize maxRange = Num.of_Z 100.
Proof.
  split; [|split; [|split; [|split; vm_compute; reflexivity]]].
  - intros Hd. unfold normalize.
    apply min_bound_range; try reflexivity.
    apply max_zero_range. apply normalize_inner_number. exact Hd.
  - apply normalize_below_range.
  - intros Hd. destruct db; try discriminate Hd. reflexivity.
Qed.

Lemma normalize_within_track_witness :
  normalize (Num.of_Z (-200)) = Num.zero.
Proof.
  apply (normalize_within_track (Num.of_Z (-200))); reflexivity.
Defined.

(** ** The focus percentage *)

Lemma accumulated_number (x : number) :
  accumulated x -> Num.is_nan x = false.
Proof. intros [->|(m & e & -> & _)]; reflexivity. Qed.

Lemma focusPercent_number (st : SessionStats) :
  statsInvariant st -> Num.is_nan (focusPercent st) = false.
Proof.
  intros (n & g & l & _ & Hd & Hv & _).
  unfold focusPercent. rewrite Hd, Hv.
  destruct (Num.gtb (acc n) Num.zero) eqn:Hpos; [|reflexivity].
  apply Math_round_number. apply mul_number; [|reflexivity].
  destruct (acc_accumulated n) as [E|(m & e & E & _)]; rewrite E in *;
    [discriminate Hpos|].
  apply div_number; [|reflexivity].
  apply accumulated_number, acc_accumulated.
Qed.

(** X7. The focus percentage is always a number: before the first tick
    of a session, when the duration is zero, it is 0 and no division
    takes place, and in every state reached from the initial one it is
    not NaN. *)
Theorem focusPercent_is_a_number (es : list Event) :
  Num.is_nan (focusPercent (stats (run es initialApp))) = false
  /\ focusPercent zeroStats = Num.zero
  /\ (forall st : SessionStats,
        Num.gtb (duration st) Num.zero = false ->
        focusPercent st = Num.zero).
Proof.
  split; [|split].
  - apply focusPercent_number. apply run_invariant, zeroStats_invariant.
  - reflexivity.
  - intros st H. unfold focusPercent. rewrite H. reflexivity.
Qed.

Lemma focusPercent_is_a_number_witness :
  focusPercent (stats (handleReset initialApp)) = Num.zero.
Proof.
  apply (focusPercent_is_a_number []). reflexivity.
Defined.

(** ** The growth sounds *)










(** ** The microphone service *)

Lemma service_call_engineView (k : ServiceCall) (a : ServiceState) :
  engineView (service_call k a)
  = match k with
    | CallStart c => fst (audio_start (isGranted c) (engineView a))
    | CallStop => audio_stop (engineView a)
    end.
Proof.
  destruct k as [c|]; [|reflexivity].
  unfold service_call, service_start, audio_start, engineView; simpl.
  destruct (sv_audioContext a) eqn:E; simpl; rewrite ?E; [reflexivity|].
  destruct c; simpl; rewrite ?E; reflexivity.
Qed.






(** ** The measured level *)

Lemma mul_number_left (a b : number) :
  is_finite a = true -> Num.is_nan b = false ->
  Num.is_nan (Num.mul a b) = false.
Proof.
  intros Ha Hb. destruct a as [| | |sa ma ea]; try discriminate Ha.
  destruct b as [sb|sb| |sb mb eb]; try discriminate Hb; try reflexivity.
  unfold Num.mul, SFmul. apply binary_round_aux_number. lia.
Qed.

Lemma level_clamp_range (x : number) :
  Num.is_nan x = false ->
  Num.leb MIN_DECIBELS (Num.max MIN_DECIBELS (Num.min x Num.zero)) = true
  /\ Num.leb (Num.max MIN_DECIBELS (Num.min x Num.zero)) Num.zero = true.
Proof.
  intros Hx.
  assert (Hy : Num.is_nan (Num.min x Num.zero) = false
               /\ Num.leb (Num.min x Num.zero) Num.zero = true).
  { pose proof (SFcompare_numbers x Num.zero Hx eq_refl) as C.
    unfold Num.min, Num.leb, SFleb.
    destruct (SFcompare x Num.zero) as [[ | | ]|] eqn:E; try congruence.
    - destruct (Num.is_neg_zero x) eqn:Z.
      + rewrite E. auto.
      + split; reflexivity.
    - rewrite E. auto.
    - split; reflexivity. }
  destruct Hy as [Hn Hle]. set (y := Num.min x Num.zero) in *.
  pose proof (SFcompare_numbers MIN_DECIBELS y eq_refl Hn) as C.
  unfold Num.max. change (Num.is_neg_zero MIN_DECIBELS) with false.
  unfold Num.leb, SFleb in *.
  destruct (SFcompare MIN_DECIBELS y) as [[ | | ]|] eqn:E; try congruence.
  - split; reflexivity.
  - rewrite E. auto.
  - split; reflexivity.
Qed.

Lemma sumSquares_silence (samples : list number) :
  forallb isZero samples = true -> sumSquares samples = Num.zero.
Proof.
  unfold sumSquares.
  assert (G : forall acc, acc = Num.zero -> forallb isZero samples = true ->
              fold_left (fun acc x => Num.add acc (Num.mul x x)) samples acc
              = Num.zero).
  { induction samples as [|x l IH]; intros acc Ha Hz; [exact Ha|].
    simpl in Hz. apply andb_prop in Hz. destruct Hz as [Hx Hl].
    simpl. apply IH; [|exact Hl]. subst acc.
    destruct x as [[]| | |]; try discriminate Hx; reflexivity. }
  intros H. apply G; [reflexivity|exact H].
Qed.

(** X11. The level [getMetrics] returns is never below MIN_DECIBELS
    (-100) nor above 0 when the logarithm of the measured rms is a number,
    whatever the samples; a buffer of [FFT_SIZE] samples that are all zero
    measures rms 0 and exactly MIN_DECIBELS, not minus infinity; and a
    service without analyser or buffer answers rms 0 and MIN_DECIBELS. *)
Theorem getMetrics_level_range (log10 : number -> number)
  (a : ServiceState) (samples : list number) :
  (Num.is_nan (log10 (fst (getMetrics log10 a samples))) = false ->
   Num.leb MIN_DECIBELS (snd (getMetrics log10 a samples)) = true
   /\ Num.leb (snd (getMetrics log10 a samples)) Num.zero = true)
  /\ (List.length samples = FFT_SIZE ->
      forallb isZero samples = true ->
      sv_analyser a = true -> sv_dataArray a = true ->
      getMetrics log10 a samples = (Num.zero, MIN_DECIBELS))
  /\ (sv_analyser a = false \/ sv_dataArray a = false ->
      getMetrics log10 a samples = (Num.zero, MIN_DECIBELS)).
Proof.
  split; [|split].
  - unfold getMetrics.
    destruct (negb (sv_analyser a) || negb (sv_dataArray a));
      [intros _; split; reflexivity|].
    cbv zeta. cbn [fst snd]. intros Hlog.
    apply level_clamp_range.
    destruct (Num.gtb _ Num.zero); [|reflexivity].
    apply mul_number_left; [reflexivity|exact Hlog].
  - intros Hlen Hz Ha Hd. unfold getMetrics. rewrite Ha, Hd. cbn [negb orb].
    rewrite (sumSquares_silence _ Hz), Hlen. reflexivity.
  - intros [H|H]; unfold getMetrics; rewrite H; cbn [negb orb];
      [reflexivity|]. rewrite orb_true_r. reflexivity.
Qed.

Lemma getMetrics_level_range_witness :
  getMetrics (fun x => x) (fst (service_start Granted freshService))
    (repeat Num.zero FFT_SIZE)
  = (Num.zero, MIN_DECIBELS).
Proof.
  assert (H1 : List.length (repeat Num.zero FFT_SIZE) = FFT_SIZE)
    by (vm_compute; reflexivity).
  assert (H2 : forallb isZero (repeat Num.zero FFT_SIZE) = true)
    by (vm_compute; reflexivity).
  destruct (getMetrics_level_range (fun x => x)
              (fst (service_start Granted freshService))
              (repeat Num.zero FFT_SIZE)) as (_ & H & _).
  apply H; [exact H1|exact H2|reflexivity|reflexivity].
Defined.

(** ** Whole numbers as binary64 values *)

Section WholeNumbers.

Lemma shl_align_exponent (mx : positive) (ex ex' : Z) :
  ex' <= ex -> snd (shl_align mx ex ex') = ex'.
Proof.
  intros H. unfold shl_align.
  destruct (ex' - ex) as [|d|d] eqn:E; try lia; cbn [snd]; lia.
Qed.

(** The binary64 value of a whole number from 1 to 2^53 - 1: the number
    shifted to 53 digits. *)
Lemma of_Z_positive (p : positive) :
  Zpos p < 2 ^ 53 ->
  exists m : positive,
    Num.of_Z (Zpos p) = S754_finite false m (Zpos (digits2_pos p) - 53)
    /\ Zpos m = Zpos p * 2 ^ (53 - Zpos (digits2_pos p))
    /\ Zpos (digits2_pos m) = 53.
Proof.
  intros Hp. pose proof (digits_bounds p) as [Bl Bu].
  set (d := Zpos (digits2_pos p)) in *.
  assert (Hd : 1 <= d <= 53).
  { split; [unfold d; lia|].
    destruct (Z.le_gt_cases d 53) as [H|H]; [exact H|].
    assert (2 ^ 53 <= 2 ^ (d - 1)) by (apply Z.pow_le_mono_r; lia). lia. }
  unfold Num.of_Z. cbn [binary_normalize]. unfold binary_round. fold d.
  rewrite fexp_normal by lia. replace (d + 0 - 53) with (d - 53) by lia.
  pose proof (shl_align_value p 0 (d - 53) ltac:(lia)) as Hv.
  pose proof (shl_align_exponent p 0 (d - 53) ltac:(lia)) as He.
  destruct (shl_align p 0 (d - 53)) as [mz ez]. cbn [fst snd] in Hv, He.
  subst ez. replace (0 - (d - 53)) with (53 - d) in Hv by lia.
  assert (P : 0 < 2 ^ (53 - d)) by (apply Z.pow_pos_nonneg; lia).
  assert (E1 : 2 ^ (d - 1) * 2 ^ (53 - d) = 2 ^ 52)
    by (rewrite <- Z.pow_add_r by lia; f_equal; lia).
  assert (E2 : 2 ^ d * 2 ^ (53 - d) = 2 ^ 53)
    by (rewrite <- Z.pow_add_r by lia; f_equal; lia).
  assert (Dz : Zpos (digits2_pos mz) = 53).
  { apply digits_unique. change (53 - 1) with 52. rewrite Hv. nia. }
  destruct (binary_round_aux_normal mz (d - 53))
    as (m3 & e3 & Hr & Hd3 & _ & Hexact); rewrite ?Dz; try lia.
  rewrite Dz in Hexact. change (53 - 53) with 0 in Hexact.
  destruct (Hexact (or_introl eq_refl)) as [Hm3 He3].
  rewrite Z.div_1_r in Hm3.
  exists mz. split; [|split; [exact Hv|exact Dz]].
  rewrite Hr. f_equal; [|lia]. apply Pos2Z.inj. exact Hm3.
Qed.

Lemma of_Z_zero : Num.of_Z 0 = S754_zero false.
Proof. reflexivity. Qed.

(** Whole numbers from 0 to 2^53 - 1 compare as their binary64 values
    do. *)
Lemma of_Z_compare (a b : Z) :
  0 <= a < 2 ^ 53 -> 0 <= b < 2 ^ 53 ->
  SFcompare (Num.of_Z a) (Num.of_Z b) = Some (a ?= b).
Proof.
  intros Ha Hb.
  destruct a as [|pa|pa]; try lia; destruct b as [|pb|pb]; try lia.
  - reflexivity.
  - destruct (of_Z_positive pb) as (mb & -> & _); [lia|]. reflexivity.
  - destruct (of_Z_positive pa) as (ma & -> & _); [lia|]. reflexivity.
  - destruct (of_Z_positive pa) as (ma & -> & Hma & Dma); [lia|].
    destruct (of_Z_positive pb) as (mb & -> & Hmb & Dmb); [lia|].
    pose proof (digits_bounds pa) as [Al Au].
    pose proof (digits_bounds pb) as [Bl Bu].
    set (da := Zpos (digits2_pos pa)) in *.
    set (db := Zpos (digits2_pos pb)) in *.
    cbn [SFcompare]. f_equal.
    destruct (Z.compare_spec (da - 53) (db - 53)) as [E|E|E].
    + assert (Ed : da = db) by lia. rewrite Ed in *.
      change (Pos.compare_cont Eq ma mb) with (Pos.compare ma mb).
      rewrite Pos2Z.inj_compare, Hma, Hmb.
      assert (P : 0 < 2 ^ (53 - db)).
      { apply Z.pow_pos_nonneg; [lia|].
        destruct (Z.le_gt_cases db 53) as [H|H]; [lia|].
        assert (2 ^ 53 <= 2 ^ (db - 1)) by (apply Z.pow_le_mono_r; lia). lia. }
      rewrite <- Zmult_compare_compat_r by lia. reflexivity.
    + symmetry. apply Z.compare_lt_iff.
      assert (2 ^ da <= 2 ^ (db - 1)) by (apply Z.pow_le_mono_r; lia). lia.
    + symmetry. apply Z.compare_gt_iff.
      assert (2 ^ db <= 2 ^ (da - 1)) by (apply Z.pow_le_mono_r; lia). lia.
Qed.

End WholeNumbers.

(** ** The background forest *)

Lemma forest_groups (j : Z) :
  1 <= j <= 12 ->
  exists nl nr : nat,
    arrayLength (Math_ceil (Num.div (Num.of_Z j) (Num.of_Z 2))) = Some nl
    /\ arrayLength (Num.floor (Num.div (Num.of_Z j) (Num.of_Z 2))) = Some nr
    /\ Z.of_nat nl = (j + 1) / 2
    /\ Z.of_nat nr = j / 2
    /\ Forall (fun x => x = Num.of_Z 30 \/ x = Num.of_Z 38 \/ x = Num.of_Z 46)
         (map (fun i =>
                 Num.add (Num.of_Z 30)
                   (Num.mul (Num.rem i (Num.of_Z 3)) (Num.of_Z 8)))
              (indices nl))
    /\ Forall (fun x => x = Num.of_Z 34 \/ x = Num.of_Z 42 \/ x = Num.of_Z 50)
         (map (fun i =>
                 Num.add (Num.of_Z 34)
                   (Num.mul (Num.rem i (Num.of_Z 3)) (Num.of_Z 8)))
              (indices nr)).
Proof.
  intros Hj.
  assert (C : j = 1 \/ j = 2 \/ j = 3 \/ j = 4 \/ j = 5 \/ j = 6 \/ j = 7
              \/ j = 8 \/ j = 9 \/ j = 10 \/ j = 11 \/ j = 12) by lia.
  repeat (destruct C as [C|C]); subst j;
    eexists; eexists;
    (split; [vm_compute; reflexivity|]);
    (split; [vm_compute; reflexivity|]);
    (split; [vm_compute; reflexivity|]);
    (split; [vm_compute; reflexivity|]);
    (split; vm_compute;
     repeat (apply Forall_cons; [auto|]); apply Forall_nil).
Qed.

Section CountFacts.

Variable k : Z.
Hypothesis whole : 0 <= k < 2 ^ 53.

Lemma of_Z_eqb_zero : Num.eqb (Num.of_Z k) (Num.of_Z 0) = (k =? 0).
Proof.
  unfold Num.eqb, SFeqb. rewrite of_Z_compare by lia.
  destruct (Z.compare_spec k 0) as [E|E|E];
    symmetry; [apply Z.eqb_eq|apply Z.eqb_neq|apply Z.eqb_neq]; lia.
Qed.

Lemma of_Z_min_twelve :
  Num.min (Num.of_Z 12) (Num.of_Z k) = Num.of_Z (Z.min 12 k).
Proof.
  unfold Num.min. rewrite of_Z_compare by lia.
  destruct (Z.compare_spec 12 k) as [E|E|E].
  - subst k. reflexivity.
  - rewrite Z.min_l by lia. reflexivity.
  - rewrite Z.min_r by lia. reflexivity.
Qed.

Lemma of_Z_gtb_twelve : Num.gtb (Num.of_Z k) (Num.of_Z 12) = (12 <? k).
Proof.
  unfold Num.gtb, SFltb. rewrite of_Z_compare by lia.
  destruct (Z.compare_spec 12 k) as [E|E|E];
    symmetry; [apply Z.ltb_ge|apply Z.ltb_lt|apply Z.ltb_ge]; lia.
Qed.

Lemma renderBackgroundForest_no_throw (st : SessionStats) :
  treesPlanted st = Num.of_Z k ->
  renderBackgroundForest st <> RenderThrows.
Proof.
  intros Ht. unfold renderBackgroundForest. rewrite Ht, of_Z_eqb_zero.
  destruct (Z.eqb_spec k 0) as [E|E]; [discriminate|].
  cbv zeta. rewrite of_Z_min_twelve.
  destruct (forest_groups (Z.min 12 k) ltac:(lia))
    as (nl & nr & -> & -> & _).
  discriminate.
Qed.

End CountFacts.

(** X12. For a tree count that is a whole number, the background forest
    is absent at 0 and otherwise draws min (12, count) trees, the left
    group one more than the right when that number is odd, with sizes
    30, 38 or 46 on the left and 34, 42 or 50 on the right; the overflow
    badge, holding the count less 12, is drawn exactly when the count
    exceeds 12.  Rendering does not throw. *)
Theorem forest_draws_at_most_twelve (k : Z) (st : SessionStats) :
  0 <= k < 2 ^ 53 ->
  treesPlanted st = Num.of_Z k ->
  (k = 0 -> renderBackgroundForest st = RenderNull)
  /\ (1 <= k ->
      exists f : Forest,
        renderBackgroundForest st = RenderForest f
        /\ Z.of_nat (List.length (leftSizes f)) = (Z.min 12 k + 1) / 2
        /\ Z.of_nat (List.length (rightSizes f)) = Z.min 12 k / 2
        /\ Z.of_nat (List.length (leftSizes f) + List.length (rightSizes f))
           = Z.min 12 k
        /\ Forall (fun x => x = Num.of_Z 30 \/ x = Num.of_Z 38
                            \/ x = Num.of_Z 46) (leftSizes f)
        /\ Forall (fun x => x = Num.of_Z 34 \/ x = Num.of_Z 42
                            \/ x = Num.of_Z 50) (rightSizes f)
        /\ overflowBadge f
           = if 12 <? k then Some (Num.sub (Num.of_Z k) (Num.of_Z 12))
             else None).
Proof.
  intros Hk Ht. unfold renderBackgroundForest. rewrite Ht.
  pose proof (of_Z_eqb_zero k Hk) as E0.
  pose proof (of_Z_min_twelve k Hk) as Emin.
  pose proof (of_Z_gtb_twelve k Hk) as Egt.
  rewrite E0. split.
  - intros ->. reflexivity.
  - intros H1. replace (k =? 0) with false by (symmetry; apply Z.eqb_neq; lia).
    cbv zeta. rewrite Emin, Egt.
    destruct (forest_groups (Z.min 12 k) ltac:(lia))
      as (nl & nr & -> & -> & Hl & Hr & Fl & Fr).
    eexists. split; [reflexivity|]. cbn [leftSizes rightSizes overflowBadge].
    rewrite !length_map. unfold indices. rewrite !length_map, !length_seq.
    split; [exact Hl|]. split; [exact Hr|].
    split.
    { rewrite Nat2Z.inj_add, Hl, Hr.
      pose proof (Z.div_mod (Z.min 12 k) 2 ltac:(lia)).
      pose proof (Z.div_mod (Z.min 12 k + 1) 2 ltac:(lia)).
      pose proof (Z.mod_pos_bound (Z.min 12 k) 2 ltac:(lia)).
      pose proof (Z.mod_pos_bound (Z.min 12 k + 1) 2 ltac:(lia)).
      lia. }
    split; [exact Fl|]. split; [exact Fr|reflexivity].
Qed.

Lemma forest_draws_at_most_twelve_witness :
  exists f : Forest,
    renderBackgroundForest
      (mkStats Num.zero Num.zero Num.zero (Num.of_Z 15))
    = RenderForest f
    /\ Z.of_nat (List.length (leftSizes f)) = 6.
Proof.
  destruct (forest_draws_at_most_twelve 15
              (mkStats Num.zero Num.zero Num.zero (Num.of_Z 15)))
    as (_ & H); [split; [lia|reflexivity]|reflexivity|].
  destruct (H ltac:(lia)) as (f & E & Hl & _).
  exists f. split; [exact E|exact Hl].
Defined.

(** ** The tree count is a whole number *)

Section Quotients.

Lemma shr_general (r : shr_record) (e n : Z) :
  0 <= shr_m r -> 0 <= n ->
  shr_m (fst (shr r e n)) = shr_m r / 2 ^ n /\ snd (shr r e n) = e + n.
Proof.
  intros Hm Hn. destruct n as [|p|p]; try lia.
  - cbn [shr fst snd]. rewrite Z.div_1_r. split; lia.
  - cbn [shr fst snd]. rewrite iter_pos_nat, iter_shr_m by exact Hm.
    rewrite positive_nat_Z. split; reflexivity.
Qed.

(** Rounding a positive mantissa of at least 53 digits, whatever was cut
    off before: a normal value, at the exponent of the 53 leading digits
    or one above. *)
Lemma binary_round_aux_finite (M : positive) (e0 : Z) (lx : location) :
  let d := Zpos (digits2_pos M) in
  let n := d - 53 in
  53 <= d -> -1074 <= e0 -> e0 + n + 1 <= 971 ->
  exists m3 e3,
    binary_round_aux Num.prec Num.emax false (Zpos M) e0 lx
    = S754_finite false m3 e3
    /\ Zpos (digits2_pos m3) = 53
    /\ e0 + n <= e3 <= e0 + n + 1.
Proof.
  intros d n Hd He Ho.
  pose proof (normal_quotient M Hd) as Hq. fold d n in Hq.
  unfold binary_round_aux.
  assert (S1 : shr_fexp Num.prec Num.emax (Zpos M) e0 lx
               = shr (shr_record_of_loc (Zpos M) lx) e0 n).
  { unfold shr_fexp. cbn [Zdigits2]. fold d.
    rewrite fexp_normal by lia. f_equal. unfold n. lia. }
  rewrite S1.
  destruct (shr_general (shr_record_of_loc (Zpos M) lx) e0 n) as (Hm & Hs);
    [rewrite shr_record_of_loc_m; lia|lia|].
  rewrite shr_record_of_loc_m in Hm.
  destruct (shr (shr_record_of_loc (Zpos M) lx) e0 n) as [r1 e1].
  cbn [fst snd] in Hm, Hs. subst e1.
  pose proof (round_nearest_even_bounds r1) as [Hb _].
  cbv zeta in Hb. rewrite Hm in Hb. rewrite Hm.
  set (m1 := Zpos M / 2 ^ n) in *.
  set (m2 := round_nearest_even m1 (loc_of_shr_record r1)) in *.
  destruct m2 as [|p2|p2] eqn:E2; try lia.
  destruct (second_shift p2 (e0 + n) ltac:(lia) ltac:(lia) ltac:(lia))
    as [Hsame Hcarry].
  destruct (shr_fexp Num.prec Num.emax (Zpos p2) (e0 + n) loc_Exact)
    as [r2 e2].
  cbn [fst snd] in Hsame, Hcarry.
  destruct (Z.eq_dec (Zpos p2) (2 ^ 53)) as [Hc|Hc].
  - destruct (Hcarry Hc) as [Hm2 He2]. rewrite Hm2, He2.
    change (2 ^ 52) with (Zpos 4503599627370496).
    replace (e0 + n + 1 <=? Num.emax - Num.prec) with true
      by (symmetry; apply Z.leb_le; unfold Num.emax, Num.prec; lia).
    exists 4503599627370496%positive, (e0 + n + 1).
    split; [reflexivity|]. split; [reflexivity|lia].
  - destruct (Hsame ltac:(lia)) as [Hm2 He2]. rewrite Hm2, He2.
    replace (e0 + n <=? Num.emax - Num.prec) with true
      by (symmetry; apply Z.leb_le; unfold Num.emax, Num.prec; lia).
    exists p2, (e0 + n).
    split; [reflexivity|].
    split; [apply digits_unique; change (53 - 1) with 52; lia|lia].
Qed.

(** The quotient of two positive normal values. *)
Lemma div_normal (m mc : positive) (e ec : Z) :
  Zpos (digits2_pos m) = 53 -> Zpos (digits2_pos mc) = 53 ->
  -1074 <= e - ec - 53 -> e - ec - 51 <= 971 ->
  exists m3 e3,
    Num.div (S754_finite false m e) (S754_finite false mc ec)
    = S754_finite false m3 e3
    /\ Zpos (digits2_pos m3) = 53
    /\ e - ec - 53 <= e3 <= e - ec - 51.
Proof.
  intros Dm Dc Hlo Hhi.
  pose proof (digits_bounds m) as Bm. rewrite Dm in Bm.
  pose proof (digits_bounds mc) as Bc. rewrite Dc in Bc.
  change (2 ^ (53 - 1)) with 4503599627370496 in Bm, Bc.
  change (2 ^ 53) with 9007199254740992 in Bm, Bc.
  unfold Num.div, SFdiv. cbn [xorb].
  unfold SFdiv_core_binary. cbn [Zdigits2]. rewrite Dm, Dc.
  replace (53 + e - (53 + ec)) with (e - ec) by lia.
  rewrite fexp_normal by lia.
  rewrite (Z.min_l (e - ec - 53) (e - ec)) by lia.
  replace (e - ec - (e - ec - 53)) with 53 by lia.
  cbv iota beta.
  rewrite Z.shiftl_mul_pow2 by lia.
  change (2 ^ 53) with 9007199254740992.
  pose proof (Z_div_mod (Zpos m * 9007199254740992) (Zpos mc) ltac:(lia))
    as Hdm.
  destruct (Z.div_eucl (Zpos m * 9007199254740992) (Zpos mc)) as [q r].
  destruct Hdm as [Hq Hr].
  assert (Hqb : 4503599627370496 <= q < 18014398509481984) by nia.
  destruct q as [|pq|pq]; try lia.
  pose proof (digits_bounds pq) as Bq.
  set (dq := Zpos (digits2_pos pq)) in *.
  assert (Hdq : 53 <= dq <= 54).
  { split.
    - destruct (Z.le_gt_cases 53 dq) as [H|H]; [exact H|].
      assert (2 ^ dq <= 2 ^ 52) by (apply Z.pow_le_mono_r; lia).
      change (2 ^ 52) with 4503599627370496 in *. lia.
    - destruct (Z.le_gt_cases dq 54) as [H|H]; [exact H|].
      assert (2 ^ 54 <= 2 ^ (dq - 1)) by (apply Z.pow_le_mono_r; lia).
      change (2 ^ 54) with 18014398509481984 in *. lia. }
  destruct (binary_round_aux_finite pq (e - ec - 53)
              (new_location (Zpos mc) r))
    as (m3 & e3 & Hres & Hd3 & He3); fold dq; try lia.
  fold dq in He3. exists m3, e3.
  split; [exact Hres|]. split; [exact Hd3|lia].
Qed.

Lemma floor_of_negative_exponent (m : positive) (e : Z) :
  e < 0 ->
  Num.floor (S754_finite false m e) = Num.of_Z (Z.shiftr (Zpos m) (- e)).
Proof.
  intros He. unfold Num.floor, Num.of_Z.
  replace (0 <=? e) with false by (symmetry; apply Z.leb_gt; exact He).
  reflexivity.
Qed.

Lemma treeCycle_value :
  TREE_CYCLE_SECONDS = S754_finite false 5629499534213120 (-49).
Proof. reflexivity. Qed.

Lemma trees_of_accumulated (x : number) :
  accumulated x ->
  exists k : Z,
    0 <= k < 2 ^ 53
    /\ Num.floor (Num.div x TREE_CYCLE_SECONDS) = Num.of_Z k.
Proof.
  intros [->|(m & e & -> & Hd & He)].
  - exists 0. split; [split; [lia|reflexivity]|reflexivity].
  - rewrite treeCycle_value.
    destruct (div_normal m 5629499534213120 e (-49) Hd eq_refl)
      as (m3 & e3 & -> & Hd3 & He3); try lia.
    rewrite floor_of_negative_exponent by lia.
    exists (Z.shiftr (Zpos m3) (- e3)). split; [|reflexivity].
    pose proof (digits_bounds m3) as B3. rewrite Hd3 in B3.
    rewrite Z.shiftr_div_pow2 by lia.
    assert (P : 0 < 2 ^ (- e3)) by (apply Z.pow_pos_nonneg; lia).
    split.
    + apply Z.div_pos; lia.
    + apply Z.div_lt_upper_bound; [lia|]. nia.
Qed.

End Quotients.

(** ** The growth percentage *)

Lemma binary_normalize_nonNegative (z e : Z) :
  0 <= z -> nonNegative (binary_normalize Num.prec Num.emax z e false).
Proof.
  intros Hz. destruct z as [|p|p]; try lia; cbn [binary_normalize].
  - left. reflexivity.
  - unfold binary_round. destruct (shl_align _ _ _) as [mz ez].
    destruct (binary_round_aux_sign false (Zpos mz) ez loc_Exact ltac:(lia))
      as [E|[(m & e' & E)|E]]; rewrite E; unfold nonNegative; eauto.
Qed.

Lemma positive_round_nonNegative (mx ex : Z) (lx : location) :
  0 <= mx -> nonNegative (binary_round_aux Num.prec Num.emax false mx ex lx).
Proof.
  intros Hm.
  destruct (binary_round_aux_sign false mx ex lx Hm) as [E|[(m & e & E)|E]];
    rewrite E; unfold nonNegative; eauto.
Qed.

Lemma div_nonNegative (x : number) (mc : positive) (ec : Z) :
  nonNegative x -> nonNegative (Num.div x (S754_finite false mc ec)).
Proof.
  intros [->|[(m & e & ->)| ->]].
  - left. reflexivity.
  - unfold Num.div, SFdiv.
    destruct (SFdiv_core_binary Num.prec Num.emax (Zpos m) e (Zpos mc) ec)
      as [[mz ez] lz] eqn:E.
    apply positive_round_nonNegative.
    unfold SFdiv_core_binary in E.
    set (m' := match _ - _ - _ with Zpos _ => _ | Z0 => _ | Zneg _ => _ end) in E.
    assert (Hm' : 0 <= m').
    { unfold m'. destruct (_ - _ - _) as [|p|p]; try lia.
      apply Z.shiftl_nonneg. lia. }
    pose proof (Z_div_mod m' (Zpos mc) ltac:(lia)) as Hd.
    destruct (Z.div_eucl m' (Zpos mc)) as [q r].
    inversion E; subst. nia.
  - right; right. reflexivity.
Qed.

Lemma mul_nonNegative (x : number) (mc : positive) (ec : Z) :
  nonNegative x -> nonNegative (Num.mul x (S754_finite false mc ec)).
Proof.
  intros [->|[(m & e & ->)| ->]].
  - left. reflexivity.
  - unfold Num.mul, SFmul. apply positive_round_nonNegative. lia.
  - right; right. reflexivity.
Qed.

Lemma nonNegative_leb_zero (x : number) :
  nonNegative x -> Num.leb Num.zero x = true.
Proof.
  intros [->|[(m & e & ->)| ->]]; reflexivity.
Qed.

Lemma rem_accumulated (x : number) (mc : positive) (ec : Z) :
  accumulated x -> nonNegative (Num.rem x (S754_finite false mc ec)).
Proof.
  intros [->|(m & e & -> & _)].
  - left. reflexivity.
  - unfold Num.rem. cbv zeta. cbn [cond_Zopp].
    apply binary_normalize_nonNegative.
    apply Z.rem_nonneg; lia.
Qed.

Lemma growthPercentage_range (st : SessionStats) :
  accumulated (validDuration st) ->
  Num.leb Num.zero (growthPercentage st) = true
  /\ Num.leb (growthPercentage st) (Num.of_Z 100) = true.
Proof.
  intros Hv. unfold growthPercentage, currentTreeProgressSeconds.
  apply min_bound_range; try reflexivity.
  apply nonNegative_leb_zero.
  change (Num.of_Z 100) with (S754_finite false 7036874417766400 (-46)).
  apply mul_nonNegative.
  rewrite treeCycle_value. apply div_nonNegative. apply rem_accumulated.
  exact Hv.
Qed.

(** X13. In every state reached from the initial one the growth
    percentage handed to the tree is a number between 0 and 100. *)
Theorem growthPercentage_within_bounds (es : list Event) :
  Num.leb Num.zero (growthPercentage (stats (run es initialApp))) = true
  /\ Num.leb (growthPercentage (stats (run es initialApp))) (Num.of_Z 100)
     = true
  /\ Num.is_nan (growthPercentage (stats (run es initialApp))) = false.
Proof.
  destruct (run_invariant EMA_ALPHA es initialApp zeroStats_invariant)
    as (n & g & l & _ & _ & Hv & _).
  fold (run es initialApp) in Hv.
  destruct (growthPercentage_range (stats (run es initialApp))) as [H0 H1].
  { rewrite Hv. apply acc_accumulated. }
  split; [exact H0|]. split; [exact H1|].
  destruct (growthPercentage (stats (run es initialApp)));
    try reflexivity; discriminate H0.
Qed.

(** ** The tree count in reachable states *)

(** X14. In every state reached from the initial one the tree count is a
    whole number from 0 to 2^53 - 1, and the background forest renders
    without throwing. *)
Theorem treesPlanted_is_whole (es : list Event) :
  exists k : Z,
    0 <= k < 2 ^ 53
    /\ treesPlanted (stats (run es initialApp)) = Num.of_Z k
    /\ renderBackgroundForest (stats (run es initialApp)) <> RenderThrows.
Proof.
  destruct (run_invariant EMA_ALPHA es initialApp zeroStats_invariant)
    as (n & g & l & _ & _ & Hv & _ & Hp).
  fold (run es initialApp) in Hv, Hp.
  destruct (trees_of_accumulated (validDuration (stats (run es initialApp))))
    as (k & Hk & E).
  { rewrite Hv. apply acc_accumulated. }
  exists k. split; [exact Hk|]. rewrite Hp, E. split; [reflexivity|].
  apply (renderBackgroundForest_no_throw k); [exact Hk|].
  rewrite Hp. exact E.
Qed.
